(** * generate_mock_jwts: mock JWT generation from a key store

    A shallow embedding of [generate_mock_jwts.py].  The script reads a JSON
    key store, builds one RS256-signed JWT per entry with the [jwcrypto]
    library and prints the tokens.

    Conventions of the embedding
    - a Python [str] is a [string]; its characters are the code points
      U+0000..U+00FF;
    - Python [bytes] are [list byte];
    - a Python [dict] is the list of its items in insertion order;
    - a raised exception is the [Err] case of [result];
    - standard output is the text written to it; every [print] writes its
      argument followed by a line feed. *)

From Stdlib Require Import String Ascii List NArith ZArith Bool Lia Arith
  Permutation.
From Stdlib Require Import Strings.Byte.
From Equations Require Import Equations.
Import ListNotations.

Local Open Scope list_scope.
Local Open Scope string_scope.

Set Implicit Arguments.
Set Warnings "-register-all".


(** ** Exceptions and results *)

(** The exceptions that can reach the top level of the script. *)
Inductive exn : Type :=
| FileNotFoundError
| PermissionError
| JSONDecodeError
| AttributeError
| JoseError (what : string).

Inductive result (A : Type) : Type :=
| Ok (a : A)
| Err (e : exn).

Arguments Ok {A} a.
Arguments Err {A} e.

Definition bind {A B : Type} (r : result A) (k : A -> result B) : result B :=
  match r with
  | Ok a => k a
  | Err e => Err e
  end.

Notation "x <- r ;; k" := (bind r (fun x => k))
  (at level 61, r at next level, right associativity).

Definition is_ok {A : Type} (r : result A) : bool :=
  match r with Ok _ => true | Err _ => false end.

(** ** Bytes *)

Definition N_of_byte (b : byte) : N := Byte.to_N b.

Definition byte_of_N (n : N) : byte :=
  match Byte.of_N n with
  | Some b => b
  | None => x00
  end.

(** ** base64url (RFC 4648 section 5, without padding)

    [jwcrypto.common.base64url_encode] is [urlsafe_b64encode] with the
    trailing [=] stripped; [base64url_decode] restores the padding from the
    length (a length of 1 modulo 4 is a [ValueError]) and decodes. *)

Definition b64url_alphabet : string :=
  "ABCDEFGHIJKLMNOPQRSTUVWXYZabcdefghijklmnopqrstuvwxyz0123456789-_".

Definition b64url_char (v : N) : ascii :=
  match String.get (N.to_nat v) b64url_alphabet with
  | Some c => c
  | None => "A"%char
  end.

Definition b64url_value (c : ascii) : option N :=
  let n := N_of_ascii c in
  (if (65 <=? n) && (n <=? 90) then Some (n - 65)
   else if (97 <=? n) && (n <=? 122) then Some (n - 97 + 26)
   else if (48 <=? n) && (n <=? 57) then Some (n - 48 + 52)
   else if n =? 45 then Some 62
   else if n =? 95 then Some 63
   else None)%N.

Definition is_b64url_char (c : ascii) : bool :=
  match b64url_value c with Some _ => true | None => false end.

Fixpoint base64url_encode (bs : list byte) : string :=
  match bs with
  | [] => ""
  | [a] =>
      let n := N_of_byte a in
      String (b64url_char (n / 4))
        (String (b64url_char ((n mod 4) * 16)) "")
  | [a; b] =>
      let n := (N_of_byte a * 256 + N_of_byte b)%N in
      String (b64url_char (n / 1024))
        (String (b64url_char ((n / 16) mod 64))
           (String (b64url_char ((n mod 16) * 4)) ""))
  | a :: b :: c :: rest =>
      let n := (N_of_byte a * 65536 + N_of_byte b * 256 + N_of_byte c)%N in
      String (b64url_char (n / 262144))
        (String (b64url_char ((n / 4096) mod 64))
           (String (b64url_char ((n / 64) mod 64))
              (String (b64url_char (n mod 64)) (base64url_encode rest))))
  end.

(** Characters outside the alphabet are rejected here; the encoder never
    produces one. *)
Fixpoint base64url_decode (s : string) : option (list byte) :=
  match s with
  | "" => Some []
  | String _ "" => None
  | String c0 (String c1 "") =>
      match b64url_value c0, b64url_value c1 with
      | Some v0, Some v1 => Some [byte_of_N (v0 * 4 + v1 / 16)%N]
      | _, _ => None
      end
  | String c0 (String c1 (String c2 "")) =>
      match b64url_value c0, b64url_value c1, b64url_value c2 with
      | Some v0, Some v1, Some v2 =>
          let n := (v0 * 4096 + v1 * 64 + v2)%N in
          Some [byte_of_N (n / 1024); byte_of_N ((n / 4) mod 256)]
      | _, _, _ => None
      end
  | String c0 (String c1 (String c2 (String c3 rest))) =>
      match b64url_value c0, b64url_value c1, b64url_value c2,
            b64url_value c3, base64url_decode rest with
      | Some v0, Some v1, Some v2, Some v3, Some bs =>
          let n := (v0 * 262144 + v1 * 4096 + v2 * 64 + v3)%N in
          Some (byte_of_N (n / 65536) :: byte_of_N ((n / 256) mod 256)
                  :: byte_of_N (n mod 256) :: bs)
      | _, _, _, _, _ => None
      end
  end.

(** ** UTF-8 for the code points below 256 *)

Definition utf8_encode_char (c : ascii) : list byte :=
  let n := N_of_ascii c in
  if (n <? 128)%N then [byte_of_N n]
  else [byte_of_N (192 + n / 64); byte_of_N (128 + n mod 64)].

Fixpoint utf8_encode (s : string) : list byte :=
  match s with
  | "" => []
  | String c rest => (utf8_encode_char c ++ utf8_encode rest)%list
  end.

(** Sequences that encode a code point above U+00FF are outside the model
    and rejected, like ill-formed ones. *)
Fixpoint utf8_decode (bs : list byte) : option string :=
  match bs with
  | [] => Some ""
  | b :: rest =>
      let n := N_of_byte b in
      if (n <? 128)%N then
        option_map (String (ascii_of_N n)) (utf8_decode rest)
      else if ((194 <=? n) && (n <=? 195))%N then
        match rest with
        | b' :: rest' =>
            let m := N_of_byte b' in
            if ((128 <=? m) && (m <? 192))%N then
              option_map (String (ascii_of_N ((n - 192) * 64 + (m - 128))))
                (utf8_decode rest')
            else None
        | [] => None
        end
      else None
  end.

(** ** Dictionaries *)

Definition dict (V : Type) : Type := list (string * V).

Fixpoint dict_get {V : Type} (k : string) (d : dict V) : option V :=
  match d with
  | [] => None
  | (k', v) :: rest => if String.eqb k k' then Some v else dict_get k rest
  end.

(** [d[k] = v]: an existing key keeps its position, a new one goes last. *)
Fixpoint dict_set {V : Type} (k : string) (v : V) (d : dict V) : dict V :=
  match d with
  | [] => [(k, v)]
  | (k', v') :: rest =>
      if String.eqb k k' then (k, v) :: rest else (k', v') :: dict_set k v rest
  end.

(** ** JSON values and [json.dumps] *)

(** A number is kept as the text [json.dumps] writes for it. *)
Inductive json : Type :=
| JNull
| JBool (b : bool)
| JNum (repr : string)
| JStr (s : string)
| JArr (elems : list json)
| JObj (members : list (string * json)).

Definition dquote : ascii := "034"%char.
Definition backslash : ascii := "092"%char.

Definition hex_digit (n : N) : ascii :=
  match String.get (N.to_nat n) "0123456789abcdef" with
  | Some c => c
  | None => "0"%char
  end.

(** [json.encoder.encode_basestring_ascii] on one character: the short
    escapes, [\u00XX] for every other character outside [' '..'~']. *)
Definition json_escape_char (c : ascii) : string :=
  let n := N_of_ascii c in
  if (n =? 34)%N then String backslash (String dquote "")
  else if (n =? 92)%N then String backslash (String backslash "")
  else if (n =? 8)%N then String backslash "b"
  else if (n =? 12)%N then String backslash "f"
  else if (n =? 10)%N then String backslash "n"
  else if (n =? 13)%N then String backslash "r"
  else if (n =? 9)%N then String backslash "t"
  else if ((32 <=? n) && (n <=? 126))%N then String c ""
  else String backslash
         (String "u" (String "0" (String "0"
            (String (hex_digit (n / 16)) (String (hex_digit (n mod 16)) ""))))).

Fixpoint json_escape (s : string) : string :=
  match s with
  | "" => ""
  | String c rest => json_escape_char c ++ json_escape rest
  end.

Definition json_quote (s : string) : string :=
  String dquote (json_escape s ++ String dquote "").

Record json_format : Type := {
  item_separator : string;
  key_separator : string;
  sort_keys : bool
}.

(** [json.dumps(v)] with the defaults of the standard library. *)
Definition python_default : json_format :=
  {| item_separator := ", "; key_separator := ": "; sort_keys := false |}.

(** [jwcrypto.common.json_encode]:
    [json.dumps(v, separators=(',', ':'), sort_keys=True)]. *)
Definition jose_compact : json_format :=
  {| item_separator := ","; key_separator := ":"; sort_keys := true |}.

Fixpoint insert_item (kv : string * string) (l : list (string * string))
  : list (string * string) :=
  match l with
  | [] => [kv]
  | x :: rest =>
      if String.leb (fst kv) (fst x) then kv :: l else x :: insert_item kv rest
  end.

Definition sort_items (l : list (string * string)) : list (string * string) :=
  fold_right insert_item [] l.

Fixpoint join_with (sep : string) (parts : list string) : string :=
  match parts with
  | [] => ""
  | [p] => p
  | p :: rest => p ++ sep ++ join_with sep rest
  end.

Fixpoint json_dumps_with (f : json_format) (v : json) : string :=
  match v with
  | JNull => "null"
  | JBool true => "true"
  | JBool false => "false"
  | JNum repr => repr
  | JStr s => json_quote s
  | JArr elems =>
      "[" ++ join_with (item_separator f) (map (json_dumps_with f) elems) ++ "]"
  | JObj members =>
      let printed :=
        (fix each (m : list (string * json)) : list (string * string) :=
           match m with
           | [] => []
           | (k, x) :: rest => (k, json_dumps_with f x) :: each rest
           end) members in
      let ordered := if sort_keys f then sort_items printed else printed in
      "{" ++ join_with (item_separator f)
               (map (fun kv => json_quote (fst kv) ++ key_separator f ++ snd kv)
                  ordered)
          ++ "}"
  end.

Definition json_dumps : json -> string := json_dumps_with python_default.
Definition json_encode : json -> string := json_dumps_with jose_compact.

(** ** Decoding JSON objects of strings

    The decoder below reads the JSON texts that are objects with string
    members (a JOSE header with [alg] and [kid], the mock claims, a JWK);
    on those it follows [json.loads], and it rejects every other text. *)

Definition is_ws (c : ascii) : bool :=
  let n := N_of_ascii c in
  ((n =? 32) || (n =? 9) || (n =? 10) || (n =? 13))%N.

Fixpoint skip_ws (s : string) : string :=
  match s with
  | String c rest => if is_ws c then skip_ws rest else s
  | "" => ""
  end.

Definition hex_value (c : ascii) : option N :=
  let n := N_of_ascii c in
  (if (48 <=? n) && (n <=? 57) then Some (n - 48)
   else if (97 <=? n) && (n <=? 102) then Some (n - 97 + 10)
   else if (65 <=? n) && (n <=? 70) then Some (n - 65 + 10)
   else None)%N.

(** The [BACKSLASH] table of [json.decoder]. *)
Definition simple_escape (c : ascii) : option ascii :=
  let n := N_of_ascii c in
  (if n =? 34 then Some dquote
   else if n =? 92 then Some backslash
   else if n =? 47 then Some "/"%char
   else if n =? 98 then Some (ascii_of_N 8)
   else if n =? 102 then Some (ascii_of_N 12)
   else if n =? 110 then Some (ascii_of_N 10)
   else if n =? 114 then Some (ascii_of_N 13)
   else if n =? 116 then Some (ascii_of_N 9)
   else None)%N.

Definition cons_char (c : ascii) (r : option (string * string))
  : option (string * string) :=
  match r with
  | Some (s, rest) => Some (String c s, rest)
  | None => None
  end.

(** [json.decoder.scanstring] in strict mode, from just after the opening
    quote: the decoded string and the text after the closing quote. *)
Fixpoint scan_string (s : string) : option (string * string) :=
  match s with
  | "" => None
  | String c rest =>
      if Ascii.eqb c dquote then Some ("", rest)
      else if Ascii.eqb c backslash then
        match rest with
        | "" => None
        | String e rest1 =>
            if Ascii.eqb e "u" then
              match rest1 with
              | String h3 (String h2 (String h1 (String h0 rest2))) =>
                  match hex_value h3, hex_value h2,
                        hex_value h1, hex_value h0 with
                  | Some a, Some b, Some c', Some d =>
                      let n := (((a * 16 + b) * 16 + c') * 16 + d)%N in
                      if (n <? 256)%N
                      then cons_char (ascii_of_N n) (scan_string rest2)
                      else None
                  | _, _, _, _ => None
                  end
              | _ => None
              end
            else
              match simple_escape e with
              | Some ch => cons_char ch (scan_string rest1)
              | None => None
              end
        end
      else if (N_of_ascii c <? 32)%N then None
      else cons_char c (scan_string rest)
  end.

(** [expect c s]: the text after [c] when [s] starts with [c]. *)
Definition expect (c : ascii) (s : string) : option string :=
  match s with
  | String c' rest => if Ascii.eqb c' c then Some rest else None
  | "" => None
  end.

(** A quoted string, from its opening quote. *)
Definition parse_string (s : string) : option (string * string) :=
  match expect dquote s with
  | Some rest => scan_string rest
  | None => None
  end.

(** One member, a quoted key, a colon and a quoted value, from the opening
    quote of the key. *)
Definition parse_member (s : string) : option (string * string * string) :=
  match parse_string s with
  | Some (k, rest1) =>
      match expect ":" (skip_ws rest1) with
      | Some rest2 =>
          match parse_string (skip_ws rest2) with
          | Some (v, rest3) => Some (k, v, rest3)
          | None => None
          end
      | None => None
      end
  | None => None
  end.

(** The members after the first, each introduced by a comma, up to the
    closing brace; [fuel] bounds the number of members. *)
Fixpoint parse_members (fuel : nat) (acc : dict string) (s : string)
  : option (dict string * string) :=
  match fuel with
  | O => None
  | S fuel' =>
      match expect "}" (skip_ws s) with
      | Some rest => Some (acc, rest)
      | None =>
          match expect "," (skip_ws s) with
          | Some rest =>
              match parse_member (skip_ws rest) with
              | Some (k, v, rest') =>
                  parse_members fuel' (dict_set k v acc) rest'
              | None => None
              end
          | None => None
          end
      end
  end.

Definition parse_object (text : string) : option (dict string * string) :=
  match expect "{" (skip_ws text) with
  | Some rest =>
      match expect "}" (skip_ws rest) with
      | Some rest' => Some ([], rest')
      | None =>
          match parse_member (skip_ws rest) with
          | Some (k, v, rest') =>
              parse_members (S (String.length rest')) [(k, v)] rest'
          | None => None
          end
      end
  | None => None
  end.

Definition json_decode_object (text : string) : option (dict string) :=
  match parse_object text with
  | Some (d, trailer) =>
      match skip_ws trailer with
      | "" => Some d
      | _ => None
      end
  | None => None
  end.

(** ** The [jwcrypto] interface

    The library is not part of the repository.  Its key import and its
    signing engines are taken as the operations of an interface; the JWT
    object around them is modelled below. *)

(** Random bytes the operating system hands to a signing engine during one
    call (used by the probabilistic algorithms, e.g. PS256 and ES256). *)
Definition entropy : Type := list byte.

Class JoseLibrary : Type := {
  (** [jwk.JWK] *)
  JWK : Type;
  (** [jwk.JWK.from_json] *)
  JWK_from_json : string -> result JWK;
  (** The signing engine registered for a JWS algorithm name, applied to the
      signing key of a JWK and to the signing input. *)
  jwa_sign : string -> JWK -> list byte -> entropy -> result (list byte)
}.

(** RSASSA-PKCS1-v1_5 signatures do not depend on the random source. *)
Definition rs256_deterministic (L : JoseLibrary) : Prop :=
  forall (k : JWK) (m : list byte) (r1 r2 : entropy),
    jwa_sign "RS256" k m r1 = jwa_sign "RS256" k m r2.

(** A signed token: the three base64url texts of a JWS. *)
Record JWS : Type := {
  jws_protected : string;
  jws_payload : string;
  jws_signature : string
}.

(** [jwt.JWT]: header and claims are kept as JSON text. *)
Record JWT : Type := {
  jwt_header : string;
  jwt_claims : string;
  jwt_token : option JWS
}.

(** Modelled from the spec: [jwt.JWT(header, claims)] of jwcrypto, which is
    not in the repository.  Both dictionaries are stored as the text
    [json_encode] gives. *)
Definition JWT_new (header claims : json) : JWT :=
  {| jwt_header := json_encode header;
     jwt_claims := json_encode claims;
     jwt_token := None |}.

Definition dot_byte : byte := byte_of_N 46.

(** The JWS signing input of RFC 7515:
    [ASCII(BASE64URL(UTF8(header)) || '.' || BASE64URL(payload))]. *)
Definition signing_input (protected payload : string) : list byte :=
  (utf8_encode protected ++ dot_byte :: utf8_encode payload)%list.

Section Signer.

Context {L : JoseLibrary}.

(** Modelled from the spec: [JWT.make_signed_token(key)] of jwcrypto, which
    is not in the repository.  The algorithm is the [alg] member of the
    protected header; the signature is computed by its engine over the
    signing input of the compact serialization. *)
Definition make_signed_token (t : JWT) (key : JWK) (rnd : entropy)
  : result JWT :=
  match json_decode_object (jwt_header t) with
  | None => Err (JoseError "InvalidJWSObject")
  | Some p =>
      match dict_get "alg" p with
      | None => Err (JoseError "InvalidJWSOperation")
      | Some alg =>
          let protected := base64url_encode (utf8_encode (jwt_header t)) in
          let payload := base64url_encode (utf8_encode (jwt_claims t)) in
          signature <- jwa_sign alg key (signing_input protected payload) rnd ;;
          Ok {| jwt_header := jwt_header t;
                jwt_claims := jwt_claims t;
                jwt_token :=
                  Some {| jws_protected := protected;
                          jws_payload := payload;
                          jws_signature := base64url_encode signature |} |}
      end
  end.

(** Modelled from the spec: [JWT.serialize()] of jwcrypto, which is not in
    the repository: the compact serialization
    [base64url(header).base64url(payload).base64url(signature)]. *)
Definition serialize (t : JWT) : result string :=
  match jwt_token t with
  | Some s =>
      Ok (jws_protected s ++ "." ++ jws_payload s ++ "." ++ jws_signature s)
  | None => Err AttributeError
  end.

(** [sign_mock_jwt(key_id, key)]. *)
Definition sign_mock_jwt (key_id : string) (key : JWK) (rnd : entropy)
  : result string :=
  let token :=
    JWT_new
      (JObj [("alg", JStr "RS256");
             ("kid", JStr key_id)])
      (JObj [("foo", JStr "bar");
             ("bin", JStr "baz")]) in
  token <- make_signed_token token key rnd ;;
  serialize token.

End Signer.

(** ** Paths *)

Definition is_sep (c : ascii) : bool := Ascii.eqb c "/".

Fixpoint has_sep (p : string) : bool :=
  match p with
  | "" => false
  | String c rest => is_sep c || has_sep rest
  end.

Fixpoint all_sep (p : string) : bool :=
  match p with
  | "" => true
  | String c rest => is_sep c && all_sep rest
  end.

(** [p[:p.rfind('/') + 1]] *)
Fixpoint upto_last_sep (p : string) : string :=
  match p with
  | "" => ""
  | String c rest =>
      if has_sep rest then String c (upto_last_sep rest)
      else if is_sep c then String c ""
      else ""
  end.

(** [p.rstrip('/')] *)
Fixpoint rstrip_sep (p : string) : string :=
  match p with
  | "" => ""
  | String c rest =>
      match rstrip_sep rest with
      | "" => if is_sep c then "" else String c ""
      | r => String c r
      end
  end.

(** [os.path.dirname] (posixpath). *)
Definition dirname (p : string) : string :=
  let head := upto_last_sep p in
  if all_sep head then head else rstrip_sep head.

Definition is_abs (p : string) : bool :=
  match p with
  | String c _ => is_sep c
  | "" => false
  end.

Fixpoint ends_with_sep (p : string) : bool :=
  match p with
  | "" => false
  | String c "" => is_sep c
  | String _ rest => ends_with_sep rest
  end.

(** [a / b] of [pathlib] for a relative [b]. *)
Definition path_join (a b : string) : string :=
  if ends_with_sep a then a ++ b else a ++ "/" ++ b.

(** What the interpreter and the operating system give the script. *)
Record environment : Type := {
  (** [__file__] *)
  script_file : string;
  (** the working directory of the process *)
  cwd : string;
  (** the canonical form of an absolute path: symbolic links followed, dot
      segments and repeated separators removed *)
  realpath : string -> string
}.

(** [pathlib.Path(p).resolve()]: a relative path is taken from the working
    directory. *)
Definition resolve (env : environment) (p : string) : string :=
  realpath env (if is_abs p then p else cwd env ++ "/" ++ p).

Definition PROJECT_DIR (env : environment) : string :=
  resolve env (dirname (script_file env)).

Definition KEY_STORE_PATH (env : environment) : string :=
  path_join (path_join (PROJECT_DIR env) "test_data") "mock_private_keys.json".


(** ** Files, events and standard output *)

(** What [open] and [json.load] find at a path. *)
Inductive file_state : Type :=
| NoSuchFile
| Unreadable
| NotJson
| JsonFile (data : json).

Definition file_system : Type := string -> file_state.

Inductive event : Type :=
| EvWrite (text : string)
| EvOpen (path : string)
| EvClose (path : string).

Definition line_feed : string := String (ascii_of_N 10) "".

(** [print(s)] *)
Definition print (s : string) (log : list event) : list event :=
  (log ++ [EvWrite (s ++ line_feed)])%list.

Fixpoint stdout (log : list event) : string :=
  match log with
  | [] => ""
  | EvWrite text :: rest => text ++ stdout rest
  | _ :: rest => stdout rest
  end.

Definition inspect {A : Type} (a : A) : {b : A | a = b} := exist _ a eq_refl.

(** ** The key loader *)

(** [data.items()] *)
Definition items (data : json) : result (list (string * json)) :=
  match data with
  | JObj members => Ok members
  | _ => Err AttributeError
  end.

(** The generator object of [load_private_keys]: not started, suspended at
    the [yield] with the items still to visit, or finished. *)
Inductive generator : Type :=
| NotStarted
| Suspended (rest : list (string * json))
| Finished.

Inductive signal (A : Type) : Type :=
| Yield (a : A)
| StopIteration
| Raise (e : exn).

Arguments Yield {A} a.
Arguments StopIteration {A}.
Arguments Raise {A} e.

(** [load_private_keys()]: calling a generator function runs none of its
    body. *)
Definition load_private_keys : generator := NotStarted.

Section Loader.

Context {L : JoseLibrary}.
Variable fs : file_system.
Variable path : string.

(** The [for key, value in data.items()] loop up to its next [yield]. *)
Definition resume_items (rest : list (string * json))
  : signal (string * JWK) * generator :=
  match rest with
  | [] => (StopIteration, Finished)
  | (key, value) :: rest' =>
      match JWK_from_json (json_dumps value) with
      | Ok k => (Yield (key, k), Suspended rest')
      | Err e => (Raise e, Finished)
      end
  end.

(** [next(g)]: the events of the step, what the step hands to the caller
    and the generator afterwards. *)
Definition gen_next (g : generator)
  : list event * signal (string * JWK) * generator :=
  match g with
  | NotStarted =>
      match fs path with
      | NoSuchFile => ([EvOpen path], Raise FileNotFoundError, Finished)
      | Unreadable => ([EvOpen path], Raise PermissionError, Finished)
      | NotJson =>
          ([EvOpen path; EvClose path], Raise JSONDecodeError, Finished)
      | JsonFile data =>
          match items data with
          | Err e => ([EvOpen path; EvClose path], Raise e, Finished)
          | Ok members =>
              let (s, g') := resume_items members in
              ([EvOpen path; EvClose path], s, g')
          end
      end
  | Suspended rest => let (s, g') := resume_items rest in ([], s, g')
  | Finished => ([], StopIteration, Finished)
  end.

(** A bound on the number of steps a generator still takes. *)
Definition gen_size (g : generator) : nat :=
  match g with
  | NotStarted =>
      match fs path with
      | JsonFile (JObj members) => S (S (List.length members))
      | _ => 2
      end
  | Suspended rest => S (List.length rest)
  | Finished => 0
  end.

Lemma gen_next_yield_smaller g evs x g' :
  gen_next g = (evs, Yield x, g') -> gen_size g' < gen_size g.
Proof.
  destruct g as [|rest|]; simpl.
  - destruct (fs path) as [| | |data]; try discriminate.
    destruct data as [| | | | |members]; simpl; try discriminate.
    destruct members as [|[key value] rest']; simpl; try discriminate.
    destruct (JWK_from_json (json_dumps value)); try discriminate.
    intros H; inversion H; subst; simpl; lia.
  - destruct rest as [|[key value] rest']; simpl; try discriminate.
    destruct (JWK_from_json (json_dumps value)); try discriminate.
    intros H; inversion H; subst; simpl; lia.
  - discriminate.
Qed.

(** [list(g)]: the generator run to its end.  The events of its steps, the
    pairs it yielded, the exception that ended it (none when it ran out of
    items) and the generator afterwards. *)
Equations gen_collect (g : generator)
  : list event * list (string * JWK) * option exn * generator
  by wf (gen_size g) lt :=
gen_collect g with inspect (gen_next g) := {
  | exist _ (evs, StopIteration, g') _ => (evs, [], None, g');
  | exist _ (evs, Raise e, g') _ => (evs, [], Some e, g');
  | exist _ (evs, Yield x, g') H with gen_collect g' := {
      | (evs', xs, r, g'') => ((evs ++ evs')%list, x :: xs, r, g'') } }.
Next Obligation.
  eapply gen_next_yield_smaller; eauto.
Qed.

End Loader.

(** ** The driver *)

Definition token_line (key_id token : string) : string :=
  " - " ++ key_id ++ ": " ++ token.

Section Driver.

Context {L : JoseLibrary}.
Variable fs : file_system.
Variable path : string.
(** The random bytes available to the [i]-th signing call. *)
Variable os_random : nat -> entropy.

(** [for key_id, key in g: token = sign_mock_jwt(key_id, key); print(...)],
    entered with [i] tokens signed so far.  An exception of the generator or
    of the body ends the loop and is passed on. *)
Equations for_loop (i : nat) (g : generator) (log : list event)
  : result unit * list event by wf (gen_size fs path g) lt :=
for_loop i g log with inspect (gen_next fs path g) := {
  | exist _ (evs, StopIteration, _) _ => (Ok tt, (log ++ evs)%list);
  | exist _ (evs, Raise e, _) _ => (Err e, (log ++ evs)%list);
  | exist _ (evs, Yield (key_id, key), g') H
      with sign_mock_jwt key_id key (os_random i) := {
      | Err e => (Err e, (log ++ evs)%list);
      | Ok token =>
          for_loop (S i) g'
            (print (token_line key_id token) (log ++ evs)%list) } }.
Next Obligation.
  eapply gen_next_yield_smaller; eauto.
Qed.

End Driver.

(** [main()] *)
Definition main {L : JoseLibrary} (env : environment) (fs : file_system)
  (os_random : nat -> entropy) : result unit * list event :=
  let log :=
    print ("Generating JWTs using keys discovered in "
             ++ KEY_STORE_PATH env ++ line_feed) [] in
  for_loop fs (KEY_STORE_PATH env) os_random 0 load_private_keys log.

(** The exit status of the interpreter: 0 when [main] returns, 1 when an
    exception reaches the top level. *)
Definition exit_status {A : Type} (r : result A) : Z :=
  match r with
  | Ok _ => 0%Z
  | Err _ => 1%Z
  end.

(** A run of the script: what it wrote to standard output, its exit status
    and its events in order. *)
Record outcome : Type := {
  output : string;
  status : Z;
  trace : list event
}.

Definition run {L : JoseLibrary} (env : environment) (fs : file_system)
  (os_random : nat -> entropy) : outcome :=
  let (r, log) := main env fs os_random in
  {| output := stdout log; status := exit_status r; trace := log |}.

(** [string_forall p s]: every character of [s] satisfies [p]. *)
Fixpoint string_forall (p : ascii -> bool) (s : string) : bool :=
  match s with
  | "" => true
  | String c rest => p c && string_forall p rest
  end.

(** ** Reading a token *)


(** A segment of a compact JWS read back as a JSON object of strings. *)
Definition decode_segment (seg : string) : option (dict string) :=
  match base64url_decode seg with
  | Some bs =>
      match utf8_decode bs with
      | Some text => json_decode_object text
      | None => None
      end
  | None => None
  end.

(** The first two segments of the tokens of [sign_mock_jwt]. *)
Definition header_segment (key_id : string) : string :=
  base64url_encode
    (utf8_encode (json_encode (JObj [("alg", JStr "RS256");
                                     ("kid", JStr key_id)]))).

Definition payload_segment : string :=
  base64url_encode
    (utf8_encode (json_encode (JObj [("foo", JStr "bar");
                                     ("bin", JStr "baz")]))).


(** ** What a run prints, entry by entry *)

Section Entries.

Context {L : JoseLibrary}.
Variable os_random : nat -> entropy.

(** The token of an entry handled as the [i]-th one: its value imported as
    a key, then signed under its identifier. *)
Definition entry_token (i : nat) (entry : string * json) : result string :=
  key <- JWK_from_json (json_dumps (snd entry)) ;;
  sign_mock_jwt (fst entry) key (os_random i).

(** The first [k] entries all import and sign, when the first of them is
    handled as the [i]-th. *)
Definition succeeds_before (i k : nat) (entries : list (string * json))
  : Prop :=
  forall j entry, j < k -> nth_error entries j = Some entry ->
    is_ok (entry_token (i + j) entry) = true.

(** The entries before the first one that fails to import or to sign, each
    identifier with its token. *)
Fixpoint signed_prefix (i : nat) (entries : list (string * json))
  : list (string * string) :=
  match entries with
  | [] => []
  | entry :: rest =>
      match entry_token i entry with
      | Ok token => (fst entry, token) :: signed_prefix (S i) rest
      | Err _ => []
      end
  end.

(** The exception of the first entry that fails, if any. *)
Fixpoint first_failure (i : nat) (entries : list (string * json))
  : result unit :=
  match entries with
  | [] => Ok tt
  | entry :: rest =>
      match entry_token i entry with
      | Ok _ => first_failure (S i) rest
      | Err e => Err e
      end
  end.

End Entries.

(** The text [print] writes for one token. *)
Definition token_record (p : string * string) : string :=
  token_line (fst p) (snd p) ++ line_feed.

Fixpoint token_records (pairs : list (string * string)) : string :=
  match pairs with
  | [] => ""
  | p :: rest => token_record p ++ token_records rest
  end.

(** The introductory line. *)
Definition header_line (env : environment) : string :=
  "Generating JWTs using keys discovered in " ++ KEY_STORE_PATH env.

(** What the first [print] writes: the introductory line, the line feed of
    the format string and the line feed of [print]. *)
Definition header_record (env : environment) : string :=
  header_line env ++ line_feed ++ line_feed.

(** The lines of a text: the pieces its line feeds end, without the line
    feeds, and what follows the last line feed when that is not empty. *)
Fixpoint lines (s : string) : list string :=
  match s with
  | "" => []
  | String c rest =>
      if Ascii.eqb c (ascii_of_N 10) then "" :: lines rest
      else
        match lines rest with
        | [] => [String c ""]
        | l :: ls => String c l :: ls
        end
  end.

Definition no_line_feed (s : string) : bool :=
  string_forall (fun c => negb (Ascii.eqb c (ascii_of_N 10))) s.

(** ** A small instance of the library interface

    A toy implementation of the interface, used to run the script on
    concrete key stores.  It stands in for jwcrypto in the concrete runs
    only: keys are dictionaries of JWK members, "RS256" is a textbook RSA
    signature over a checksum and "PS256" a salted variant. *)
Module Example.

Definition required_members (kty : string) : option (list string) :=
  if String.eqb kty "RSA" then Some ["n"; "e"]
  else if String.eqb kty "EC" then Some ["crv"; "x"; "y"]
  else if String.eqb kty "OKP" then Some ["crv"; "x"]
  else if String.eqb kty "oct" then Some ["k"]
  else None.

Definition has_member (d : dict string) (k : string) : bool :=
  match dict_get k d with Some _ => true | None => false end.

Definition from_json (text : string) : result (dict string) :=
  match json_decode_object text with
  | None => Err (JoseError "InvalidJWKValue")
  | Some d =>
      match dict_get "kty" d with
      | None => Err (JoseError "InvalidJWKValue")
      | Some kty =>
          match required_members kty with
          | None => Err (JoseError "InvalidJWKType")
          | Some names =>
              if forallb (has_member d) names then Ok d
              else Err (JoseError "InvalidJWKValue")
          end
      end
  end.

Definition N_of_bytes (bs : list byte) : N :=
  fold_left (fun acc b => (acc * 256 + N_of_byte b)%N) bs 0%N.

Definition member_number (d : dict string) (k : string) : option N :=
  match dict_get k d with
  | Some text => option_map N_of_bytes (base64url_decode text)
  | None => None
  end.

Definition checksum (m : list byte) : N :=
  fold_left (fun acc b => (acc + N_of_byte b)%N) m 0%N.

Fixpoint power_mod (b : N) (e : positive) (n : N) : N :=
  match e with
  | xH => (b mod n)%N
  | xO e' => let r := power_mod b e' n in (r * r mod n)%N
  | xI e' => let r := power_mod b e' n in (r * r * b mod n)%N
  end.

Definition rsa_sign (key : dict string) (digest : N) : result (list byte) :=
  match dict_get "kty" key, member_number key "n", member_number key "d" with
  | Some kty, Some n, Some d =>
      if String.eqb kty "RSA" then
        let s := match d with
                 | N0 => (1 mod n)%N
                 | Npos e => power_mod digest e n
                 end in
        Ok [byte_of_N (s / 256); byte_of_N (s mod 256)]
      else Err (JoseError "InvalidJWKType")
  | _, _, _ => Err (JoseError "InvalidJWKType")
  end.

Definition sign (alg : string) (key : dict string) (m : list byte)
  (rnd : entropy) : result (list byte) :=
  if String.eqb alg "RS256" then rsa_sign key (checksum m)
  else if String.eqb alg "PS256" then rsa_sign key (checksum m + checksum rnd)
  else Err (JoseError "InvalidJWAAlgorithm").

#[export] Instance library : JoseLibrary :=
  {| JWK := dict string; JWK_from_json := from_json; jwa_sign := sign |}.

Definition rsa_private : json :=
  JObj [("kty", JStr "RSA"); ("n", JStr "DKE"); ("e", JStr "EQ");
        ("d", JStr "CsE")].

Definition rsa_public : json :=
  JObj [("kty", JStr "RSA"); ("n", JStr "DKE"); ("e", JStr "EQ")].

Definition ec_private : json :=
  JObj [("kty", JStr "EC"); ("crv", JStr "P-256"); ("x", JStr "AQ");
        ("y", JStr "Ag"); ("d", JStr "Aw")].

Definition env : environment :=
  {| script_file := "/srv/tools/generate_mock_jwts.py";
     cwd := "/home/user";
     realpath := fun p => p |}.

Definition key_store_path : string :=
  "/srv/tools/test_data/mock_private_keys.json".

Definition fs_with (f : file_state) : file_system :=
  fun p => if String.eqb p key_store_path then f else NoSuchFile.

Definition no_random : nat -> entropy := fun _ => [].

Definition one_entry : list (string * json) := [("k1", rsa_private)].

Definition two_entries : list (string * json) :=
  [("k1", rsa_private); ("k2", rsa_private)].

(** The second entry lacks the private exponent. *)
Definition mixed_entries : list (string * json) :=
  [("k1", rsa_private); ("k2", rsa_public); ("k3", rsa_private)].

(** The first entry lacks the private exponent. *)
Definition public_first : list (string * json) :=
  [("k2", rsa_public); ("k3", rsa_private)].

(** The only entry is an elliptic-curve key. *)
Definition ec_only : list (string * json) := [("ec", ec_private)].

(** A file system whose key store is the JSON object of [entries]. *)
Definition store (entries : list (string * json)) : file_system :=
  fs_with (JsonFile (JObj entries)).

Definition run_on (fs : file_system) : outcome := run env fs no_random.

(** The keys [from_json] imports from the entries above. *)
Definition rsa_private_key : dict string :=
  [("kty", "RSA"); ("n", "DKE"); ("e", "EQ"); ("d", "CsE")].

Definition rsa_public_key : dict string :=
  [("kty", "RSA"); ("n", "DKE"); ("e", "EQ")].

Definition ec_private_key : dict string :=
  [("kty", "EC"); ("crv", "P-256"); ("x", "AQ"); ("y", "Ag"); ("d", "Aw")].

(** The token of [rsa_private] under the identifier k1. *)
Definition k1_token : string :=
  "eyJhbGciOiJSUzI1NiIsImtpZCI6ImsxIn0.eyJiaW4iOiJiYXoiLCJmb28iOiJiYXIifQ.CQE".

End Example.

(** * Properties *)

Unset Implicit Arguments.

(** ** Bytes and base64url *)


Lemma N_of_byte_bound b : (N_of_byte b < 256)%N.
Proof. unfold N_of_byte. pose proof (Byte.to_N_bounded b). lia. Qed.


Lemma below_64_cases (P : N -> Prop) :
  (forall n : nat, (n < 64)%nat -> P (N.of_nat n)) ->
  forall v, (v < 64)%N -> P v.
Proof.
  intros H v Hv. rewrite <- (N2Nat.id v). apply H. lia.
Qed.

Lemma b64url_value_char v :
  (v < 64)%N -> b64url_value (b64url_char v) = Some v.
Proof.
  revert v. apply below_64_cases. intros n Hn.
  do 64 (destruct n as [|n]; [reflexivity|]). lia.
Qed.

Lemma b64url_char_valid v : (v < 64)%N -> is_b64url_char (b64url_char v) = true.
Proof. intros Hv. unfold is_b64url_char. now rewrite b64url_value_char. Qed.

Lemma list_ind3 (A : Type) (P : list A -> Prop) :
  P [] -> (forall a, P [a]) -> (forall a b, P [a; b]) ->
  (forall a b c rest, P rest -> P (a :: b :: c :: rest)) ->
  forall l, P l.
Proof.
  intros H0 H1 H2 H3.
  fix IH 1.
  intros [|a [|b [|c rest]]]; [exact H0 | apply H1 | apply H2 | apply H3, IH].
Qed.

Ltac euclid := zify; Z.to_euclidean_division_equations; lia.


Lemma string_forall_app p a b :
  string_forall p (a ++ b) = string_forall p a && string_forall p b.
Proof.
  induction a as [|c a IH]; simpl; [reflexivity|].
  now rewrite IH, andb_assoc.
Qed.

Lemma string_forall_impl (p q : ascii -> bool) s :
  (forall c, p c = true -> q c = true) ->
  string_forall p s = true -> string_forall q s = true.
Proof.
  intros Hpq. induction s as [|c s IH]; simpl; [reflexivity|].
  rewrite !andb_true_iff. intros [Hc Hs]. split; auto.
Qed.

(** The encoder writes characters of the base64url alphabet only. *)
Lemma base64url_encode_alphabet bs :
  string_forall is_b64url_char (base64url_encode bs) = true.
Proof.
  induction bs as [|a|a b|a b c rest IH] using list_ind3.
  - reflexivity.
  - pose proof (N_of_byte_bound a) as Ha.
    cbn [base64url_encode string_forall].
    rewrite !b64url_char_valid by euclid. reflexivity.
  - pose proof (N_of_byte_bound a) as Ha. pose proof (N_of_byte_bound b) as Hb.
    cbn [base64url_encode string_forall].
    rewrite !b64url_char_valid by euclid. reflexivity.
  - pose proof (N_of_byte_bound a) as Ha. pose proof (N_of_byte_bound b) as Hb.
    pose proof (N_of_byte_bound c) as Hc.
    cbn [base64url_encode string_forall].
    rewrite !b64url_char_valid by euclid. rewrite IH. reflexivity.
Qed.

(** ** Strings, UTF-8 and JSON text *)

Lemma app_assoc_s (a b c : string) : (a ++ b) ++ c = a ++ (b ++ c).
Proof. induction a as [|x a IH]; simpl; [reflexivity | now rewrite IH]. Qed.

Lemma app_nil_r_s (a : string) : a ++ "" = a.
Proof. induction a as [|x a IH]; simpl; [reflexivity | now rewrite IH]. Qed.



(** The scanner reads one escaped character back. *)
Lemma scan_escape_char c rest :
  scan_string (json_escape_char c ++ rest) = cons_char c (scan_string rest).
Proof.
  destruct c as [[] [] [] [] [] [] [] []]; reflexivity.
Qed.

Lemma scan_escape s rest :
  scan_string (json_escape s ++ String dquote rest) = Some (s, rest).
Proof.
  induction s as [|c s IH]; [reflexivity|].
  cbn [json_escape]. rewrite app_assoc_s, scan_escape_char, IH. reflexivity.
Qed.

Lemma json_quote_app s rest :
  json_quote s ++ rest = String dquote (json_escape s ++ String dquote rest).
Proof. unfold json_quote. cbn [append]. now rewrite app_assoc_s. Qed.

Lemma parse_string_quoted s rest :
  parse_string (json_quote s ++ rest) = Some (s, rest).
Proof. rewrite json_quote_app. unfold parse_string. cbn. apply scan_escape. Qed.

Lemma skip_ws_quoted s rest :
  skip_ws (json_quote s ++ rest) = json_quote s ++ rest.
Proof. rewrite json_quote_app. reflexivity. Qed.

Lemma expect_quoted c s rest :
  Ascii.eqb dquote c = false -> expect c (json_quote s ++ rest) = None.
Proof. intros H. rewrite json_quote_app. unfold expect. now rewrite H. Qed.

Lemma parse_member_quoted k v rest :
  parse_member (json_quote k ++ String ":" (json_quote v ++ rest))
  = Some (k, v, rest).
Proof.
  unfold parse_member. rewrite parse_string_quoted.
  change (skip_ws (String ":" ?x)) with (String ":" x).
  change (expect ":" (String ":" ?x)) with (Some x).
  cbv iota beta. rewrite skip_ws_quoted, parse_string_quoted. reflexivity.
Qed.

(** The text of an object of two string members decodes to the dictionary
    that holds them. *)
Lemma decode_two_members k1 v1 k2 v2 :
  json_decode_object
    (String "{"
       (json_quote k1 ++ String ":" (json_quote v1 ++ String ","
          (json_quote k2 ++ String ":" (json_quote v2 ++ "}")))))
  = Some (dict_set k2 v2 [(k1, v1)]).
Proof.
  unfold json_decode_object, parse_object.
  change (skip_ws (String "{" ?x)) with (String "{" x).
  change (expect "{" (String "{" ?x)) with (Some x). cbv iota beta.
  rewrite skip_ws_quoted, expect_quoted by reflexivity.
  rewrite parse_member_quoted.
  cbn [parse_members String.length].
  change (skip_ws (String "," ?x)) with (String "," x).
  change (expect "}" (String "," ?x)) with (@None string).
  change (expect "," (String "," ?x)) with (Some x). cbv iota beta.
  rewrite skip_ws_quoted, parse_member_quoted.
  rewrite json_quote_app. cbn [String.length parse_members].
  reflexivity.
Qed.

(** ** The token signer *)



Lemma b64url_char_not c sep :
  is_b64url_char sep = false ->
  is_b64url_char c = true -> negb (Ascii.eqb c sep) = true.
Proof.
  intros Hsep Hc. apply negb_true_iff, Ascii.eqb_neq. congruence.
Qed.

Lemma header_text key_id :
  json_encode (JObj [("alg", JStr "RS256"); ("kid", JStr key_id)])
  = String "{"
      (json_quote "alg" ++ String ":" (json_quote "RS256" ++ String ","
         (json_quote "kid" ++ String ":" (json_quote key_id ++ "}")))).
Proof.
  unfold json_encode. cbn -[json_quote]. rewrite !app_assoc_s. reflexivity.
Qed.

Lemma header_decodes key_id :
  json_decode_object
    (json_encode (JObj [("alg", JStr "RS256"); ("kid", JStr key_id)]))
  = Some [("alg", "RS256"); ("kid", key_id)].
Proof. rewrite header_text, decode_two_members. reflexivity. Qed.


Lemma payload_segment_decodes :
  decode_segment payload_segment = Some [("bin", "baz"); ("foo", "bar")].
Proof. reflexivity. Qed.

(** What [sign_mock_jwt] returns, in terms of the RS256 engine alone. *)
Lemma sign_mock_jwt_unfold {L : JoseLibrary} key_id (key : JWK) rnd :
  sign_mock_jwt key_id key rnd
  = match jwa_sign "RS256" key
            (signing_input (header_segment key_id) payload_segment) rnd with
    | Ok signature =>
        Ok (header_segment key_id ++ "." ++ payload_segment ++ "."
              ++ base64url_encode signature)
    | Err e => Err e
    end.
Proof.
  unfold sign_mock_jwt, make_signed_token, JWT_new.
  cbn [jwt_header jwt_claims jwt_token].
  rewrite header_decodes. cbn [dict_get String.eqb Ascii.eqb Bool.eqb].
  fold (header_segment key_id). fold payload_segment.
  destruct (jwa_sign "RS256" key _ rnd); reflexivity.
Qed.



(** C7.  The token depends on the identifier and the key only: RS256
    signatures being deterministic, two calls with the same identifier and
    key return the same result whatever the random source holds.  The
    function reads no file and writes no event: it takes neither. *)
Theorem sign_mock_jwt_deterministic {L : JoseLibrary}
  (key_id : string) (key : JWK) (rnd1 rnd2 : entropy) :
  rs256_deterministic L ->
  sign_mock_jwt key_id key rnd1 = sign_mock_jwt key_id key rnd2.
Proof.
  intros Hdet. rewrite !sign_mock_jwt_unfold.
  now rewrite (Hdet key _ rnd1 rnd2).
Qed.

(** ** The loop of the driver *)

Section LoopFacts.

Context {L : JoseLibrary}.
Variable fs : file_system.
Variable path : string.
Variable os_random : nat -> entropy.

(** One turn of the loop. *)
Lemma for_loop_step i g log :
  for_loop fs path os_random i g log
  = match gen_next fs path g with
    | (evs, StopIteration, _) => (Ok tt, (log ++ evs)%list)
    | (evs, Raise e, _) => (Err e, (log ++ evs)%list)
    | (evs, Yield (key_id, key), g') =>
        match sign_mock_jwt key_id key (os_random i) with
        | Err e => (Err e, (log ++ evs)%list)
        | Ok token =>
            for_loop fs path os_random (S i) g'
              (print (token_line key_id token) (log ++ evs)%list)
        end
    end.
Proof.
  funelim (for_loop fs path os_random i g log).
  all: match goal with H : gen_next _ _ _ = _ |- _ => rewrite H end.
  all: try match goal with H : sign_mock_jwt _ _ _ = _ |- _ => rewrite H end.
  all: reflexivity.
Qed.

Definition writes (pairs : list (string * string)) : list event :=
  map (fun p => EvWrite (token_record p)) pairs.

(** From a suspended generator the loop prints the tokens of the entries up
    to the first failure and ends with that failure. *)
Lemma for_loop_suspended rest : forall i log,
  for_loop fs path os_random i (Suspended rest) log
  = (first_failure os_random i rest,
     (log ++ writes (signed_prefix os_random i rest))%list).
Proof.
  induction rest as [|[key_id value] rest IH]; intros i log;
    rewrite for_loop_step; cbn [gen_next resume_items].
  - reflexivity.
  - cbn [signed_prefix first_failure]. unfold entry_token. cbn [fst snd].
    destruct (JWK_from_json (json_dumps value)) as [key|e]; cbn [bind].
    + destruct (sign_mock_jwt key_id key (os_random i)) as [token|e].
      * rewrite IH. unfold print. rewrite app_nil_r, <- app_assoc.
        reflexivity.
      * reflexivity.
    + reflexivity.
Qed.

(** The first turn opens and closes the key store, then goes on as from a
    generator suspended before the first entry. *)
Lemma for_loop_not_started i log :
  for_loop fs path os_random i NotStarted log
  = match fs path with
    | NoSuchFile => (Err FileNotFoundError, (log ++ [EvOpen path])%list)
    | Unreadable => (Err PermissionError, (log ++ [EvOpen path])%list)
    | NotJson =>
        (Err JSONDecodeError, (log ++ [EvOpen path; EvClose path])%list)
    | JsonFile data =>
        match items data with
        | Err e => (Err e, (log ++ [EvOpen path; EvClose path])%list)
        | Ok entries =>
            (first_failure os_random i entries,
             (log ++ [EvOpen path; EvClose path]
                  ++ writes (signed_prefix os_random i entries))%list)
        end
    end.
Proof.
  rewrite for_loop_step. cbn [gen_next].
  destruct (fs path) as [| | |data]; try reflexivity.
  destruct (items data) as [entries|e]; [|reflexivity].
  destruct entries as [|[key_id value] rest]; cbn [resume_items].
  - cbn. rewrite ?app_nil_r. reflexivity.
  - cbn [signed_prefix first_failure]. unfold entry_token. cbn [fst snd].
    destruct (JWK_from_json (json_dumps value)) as [key|e]; cbn [bind].
    + destruct (sign_mock_jwt key_id key (os_random i)) as [token|e].
      * rewrite for_loop_suspended. unfold print.
        rewrite <- !app_assoc. reflexivity.
      * cbn. rewrite ?app_nil_r. reflexivity.
    + cbn. rewrite ?app_nil_r. reflexivity.
Qed.

End LoopFacts.

Lemma stdout_app a b : stdout (a ++ b) = stdout a ++ stdout b.
Proof.
  induction a as [|[text|p|p] a IH]; cbn; auto.
  now rewrite IH, app_assoc_s.
Qed.

Lemma stdout_writes pairs : stdout (writes pairs) = token_records pairs.
Proof.
  unfold writes.
  induction pairs as [|p pairs IH]; cbn [map stdout token_records];
    [reflexivity | now rewrite IH].
Qed.

(** ** Runs *)

(** The events of a run over a key store that is a JSON object. *)
Lemma main_json_object {L : JoseLibrary} env fs os_random entries :
  fs (KEY_STORE_PATH env) = JsonFile (JObj entries) ->
  main env fs os_random
  = (first_failure os_random 0 entries,
     (EvWrite (header_record env)
        :: EvOpen (KEY_STORE_PATH env) :: EvClose (KEY_STORE_PATH env)
        :: writes (signed_prefix os_random 0 entries))).
Proof.
  intros Hfs. unfold main, load_private_keys.
  rewrite for_loop_not_started, Hfs. cbn [items].
  unfold print, header_record, header_line.
  rewrite !app_assoc_s. reflexivity.
Qed.

Lemma run_json_object {L : JoseLibrary} env fs os_random entries :
  fs (KEY_STORE_PATH env) = JsonFile (JObj entries) ->
  run env fs os_random
  = {| output :=
         header_record env ++ token_records (signed_prefix os_random 0 entries);
       status := exit_status (first_failure os_random 0 entries);
       trace :=
         EvWrite (header_record env)
           :: EvOpen (KEY_STORE_PATH env) :: EvClose (KEY_STORE_PATH env)
           :: writes (signed_prefix os_random 0 entries) |}.
Proof.
  intros Hfs. unfold run.
  rewrite (main_json_object env fs os_random entries Hfs).
  cbn [stdout]. now rewrite stdout_writes.
Qed.

(** ** The entries a run prints *)

Section PrefixFacts.

Context {L : JoseLibrary}.
Variable os_random : nat -> entropy.

Lemma signed_prefix_length entries : forall i,
  List.length (signed_prefix os_random i entries) <= List.length entries.
Proof.
  induction entries as [|entry rest IH]; intros i; cbn; [lia|].
  destruct (entry_token os_random i entry); cbn; [|lia].
  specialize (IH (S i)). lia.
Qed.

(** Every printed pair is an entry of the store, at the same position, with
    the token of that entry. *)
Lemma signed_prefix_nth entries : forall i j key_id token,
  nth_error (signed_prefix os_random i entries) j = Some (key_id, token) ->
  exists value,
    nth_error entries j = Some (key_id, value)
    /\ entry_token os_random (i + j) (key_id, value) = Ok token.
Proof.
  induction entries as [|[id value] rest IH]; intros i j key_id token;
    cbn [signed_prefix].
  - destruct j; discriminate.
  - destruct (entry_token os_random i (id, value)) as [tok|e] eqn:Htok.
    + destruct j as [|j]; cbn [nth_error fst].
      * intros H. inversion H; subst. exists value. split; [reflexivity|].
        now rewrite Nat.add_0_r.
      * intros H. apply IH in H. destruct H as [v [Hv Ht]].
        exists v. split; [assumption|]. now rewrite Nat.add_succ_r.
    + destruct j; discriminate.
Qed.

(** Nothing is printed for an entry that fails, nor after it. *)
Lemma signed_prefix_stops entries : forall i k entry e,
  nth_error entries k = Some entry ->
  entry_token os_random (i + k) entry = Err e ->
  List.length (signed_prefix os_random i entries) <= k
  /\ exists e', first_failure os_random i entries = Err e'.
Proof.
  induction entries as [|entry0 rest IH]; intros i k entry e Hnth Hfail.
  - destruct k; discriminate.
  - cbn [signed_prefix first_failure].
    destruct k as [|k]; cbn [nth_error] in Hnth.
    + inversion Hnth; subst. rewrite Nat.add_0_r in Hfail. rewrite Hfail.
      split; [cbn; lia | eauto].
    + destruct (entry_token os_random i entry0) as [tok|e0].
      * rewrite Nat.add_succ_r in Hfail.
        destruct (IH (S i) k entry e Hnth Hfail) as [Hlen Herr].
        split; [cbn; lia | assumption].
      * split; [cbn; lia | eauto].
Qed.

(** When the entries before a failing one all succeed, they are all
    printed and the run ends with the exception of the failing entry. *)
Lemma signed_prefix_exact entries : forall i k entry e,
  nth_error entries k = Some entry ->
  entry_token os_random (i + k) entry = Err e ->
  succeeds_before os_random i k entries ->
  List.length (signed_prefix os_random i entries) = k
  /\ first_failure os_random i entries = Err e.
Proof.
  induction entries as [|entry0 rest IH]; intros i k entry e Hnth Hfail Hok.
  - destruct k; discriminate.
  - cbn [signed_prefix first_failure].
    destruct k as [|k]; cbn [nth_error] in Hnth.
    + inversion Hnth; subst. rewrite Nat.add_0_r in Hfail. rewrite Hfail.
      split; reflexivity.
    + pose proof (Hok 0 entry0 ltac:(lia) eq_refl) as H0.
      rewrite Nat.add_0_r in H0.
      destruct (entry_token os_random i entry0) as [tok|e0]; [|discriminate].
      rewrite Nat.add_succ_r in Hfail.
      destruct (IH (S i) k entry e Hnth Hfail) as [Hlen Herr].
      { intros j entry' Hj Hn. specialize (Hok (S j) entry' ltac:(lia) Hn).
        now rewrite Nat.add_succ_r in Hok. }
      split; [cbn; lia | assumption].
Qed.

(** When every entry succeeds, every entry is printed, in order. *)
Lemma signed_prefix_all entries : forall i,
  succeeds_before os_random i (List.length entries) entries ->
  map fst (signed_prefix os_random i entries) = map fst entries
  /\ first_failure os_random i entries = Ok tt.
Proof.
  induction entries as [|entry0 rest IH]; intros i Hok.
  - split; reflexivity.
  - cbn [signed_prefix first_failure].
    pose proof (Hok 0 entry0 ltac:(cbn; lia) eq_refl) as H0.
    rewrite Nat.add_0_r in H0.
    destruct (entry_token os_random i entry0) as [tok|e0]; [|discriminate].
    destruct (IH (S i)) as [Hmap Hres].
    { intros j entry' Hj Hn.
      specialize (Hok (S j) entry' ltac:(cbn; lia) Hn).
      now rewrite Nat.add_succ_r in Hok. }
    split; [cbn; now rewrite Hmap | assumption].
Qed.

End PrefixFacts.

(** ** Failing runs *)

(** C2.  When the entry at position [k] of the key store cannot be imported
    or cannot be signed with (a JWK without its private exponent is such an
    entry), the run ends with a non-zero exit status; after the
    introductory record it has written token records for entries before
    position [k] only, each with the token of its entry, and for all of them
    when they all succeed. *)
Theorem failing_entry_ends_run {L : JoseLibrary} (env : environment)
  (fs : file_system) (os_random : nat -> entropy)
  (entries : list (string * json)) (k : nat) (entry : string * json)
  (e : exn) :
  fs (KEY_STORE_PATH env) = JsonFile (JObj entries) ->
  nth_error entries k = Some entry ->
  entry_token os_random k entry = Err e ->
  exists printed : list (string * string),
    status (run env fs os_random) <> 0%Z
    /\ output (run env fs os_random)
       = header_record env ++ token_records printed
    /\ List.length printed <= k
    /\ (forall j key_id token,
          nth_error printed j = Some (key_id, token) ->
          j < k
          /\ exists value,
               nth_error entries j = Some (key_id, value)
               /\ entry_token os_random j (key_id, value) = Ok token)
    /\ (succeeds_before os_random 0 k entries ->
          List.length printed = k
          /\ status (run env fs os_random) = 1%Z).
Proof.
  intros Hfs Hnth Hfail.
  exists (signed_prefix os_random 0 entries).
  rewrite (run_json_object env fs os_random entries Hfs). cbn [status output].
  destruct (signed_prefix_stops os_random entries 0 k entry e Hnth Hfail)
    as [Hlen [e' Herr]].
  rewrite Herr. cbn [exit_status].
  split; [discriminate|]. split; [reflexivity|]. split; [assumption|].
  split.
  - intros j key_id token Hj. split.
    + assert (j < List.length (signed_prefix os_random 0 entries))
        by (apply nth_error_Some; congruence).
      lia.
    + apply (signed_prefix_nth os_random entries 0 j key_id token) in Hj.
      exact Hj.
  - intros Hok.
    destruct (signed_prefix_exact os_random entries 0 k entry e Hnth Hfail Hok)
      as [Hk _].
    split; [assumption | reflexivity].
Qed.

(** C6.  When the key store is missing, the run ends with exit status 1 and
    its whole output is the introductory record: no token is written. *)
Theorem missing_key_store {L : JoseLibrary} (env : environment)
  (fs : file_system) (os_random : nat -> entropy) :
  fs (KEY_STORE_PATH env) = NoSuchFile ->
  status (run env fs os_random) = 1%Z
  /\ status (run env fs os_random) <> 0%Z
  /\ output (run env fs os_random) = header_record env
  /\ trace (run env fs os_random)
     = [EvWrite (header_record env); EvOpen (KEY_STORE_PATH env)].
Proof.
  intros Hfs. unfold run, main, load_private_keys.
  rewrite for_loop_not_started, Hfs.
  unfold print, header_record, header_line.
  cbn [app status output trace stdout exit_status].
  rewrite !app_assoc_s, app_nil_r_s.
  repeat split; try reflexivity. discriminate.
Qed.

(** C9.  In every run the introductory record is the first event and the
    opening of the key store the second: the generator opens the file at its
    first step, after the [print].  With a missing or unreadable key store
    the run still writes the introductory record, and nothing else, before
    it fails. *)
Theorem header_precedes_open {L : JoseLibrary} (env : environment)
  (fs : file_system) (os_random : nat -> entropy) :
  (exists rest,
     trace (run env fs os_random)
     = EvWrite (header_record env) :: EvOpen (KEY_STORE_PATH env) :: rest)
  /\ (fs (KEY_STORE_PATH env) = NoSuchFile
      \/ fs (KEY_STORE_PATH env) = Unreadable ->
      output (run env fs os_random) = header_record env
      /\ status (run env fs os_random) = 1%Z).
Proof.
  unfold run, main, load_private_keys.
  rewrite for_loop_not_started.
  unfold print, header_record, header_line.
  rewrite !app_assoc_s.
  split.
  - destruct (fs (KEY_STORE_PATH env)) as [| | |data];
      cbn [app trace]; eauto.
    destruct (items data); cbn [app trace]; eauto.
  - intros [H|H]; rewrite H; cbn [app status output stdout exit_status];
      rewrite app_nil_r_s; split; reflexivity.
Qed.

(** ** Lines of the output *)

Lemma lines_line l rest :
  no_line_feed l = true ->
  lines (l ++ line_feed ++ rest) = l :: lines rest.
Proof.
  unfold no_line_feed. induction l as [|c l IH]; cbn [string_forall].
  - intros _. reflexivity.
  - rewrite andb_true_iff, negb_true_iff. intros [Hc Hl].
    cbn [append lines]. rewrite Hc, IH by assumption. reflexivity.
Qed.

Lemma no_line_feed_app a b :
  no_line_feed (a ++ b) = no_line_feed a && no_line_feed b.
Proof. apply string_forall_app. Qed.

Lemma b64url_no_line_feed s :
  string_forall is_b64url_char s = true -> no_line_feed s = true.
Proof.
  apply string_forall_impl. intros c. now apply b64url_char_not.
Qed.

Lemma Ok_inj (A : Type) (a b : A) : Ok a = Ok b -> a = b.
Proof. intros H. now injection H. Qed.

(** A token holds no line feed. *)
Lemma token_no_line_feed {L : JoseLibrary} key_id (key : JWK) rnd token :
  sign_mock_jwt key_id key rnd = Ok token -> no_line_feed token = true.
Proof.
  rewrite sign_mock_jwt_unfold.
  destruct (jwa_sign "RS256" key _ rnd) as [signature|e]; [|discriminate].
  intros H. apply Ok_inj in H. subst token.
  assert (Hh : no_line_feed (header_segment key_id) = true)
    by apply b64url_no_line_feed, base64url_encode_alphabet.
  assert (Hp : no_line_feed payload_segment = true) by reflexivity.
  assert (Hs : no_line_feed (base64url_encode signature) = true)
    by apply b64url_no_line_feed, base64url_encode_alphabet.
  rewrite !no_line_feed_app, Hh, Hp, Hs. reflexivity.
Qed.

Lemma entry_token_no_line_feed {L : JoseLibrary} os_random i entry token :
  entry_token os_random i entry = Ok token -> no_line_feed token = true.
Proof.
  unfold entry_token.
  destruct (JWK_from_json (json_dumps (snd entry))) as [key|e];
    [|discriminate].
  cbn [bind]. apply token_no_line_feed.
Qed.

Definition printed_line (p : string * string) : string :=
  token_line (fst p) (snd p).

Lemma lines_token_records pairs :
  forallb (fun p => no_line_feed (printed_line p)) pairs = true ->
  lines (token_records pairs) = map printed_line pairs.
Proof.
  induction pairs as [|p pairs IH]; cbn [forallb token_records map];
    [reflexivity|].
  rewrite andb_true_iff. intros [Hp Hrest].
  unfold token_record. fold (printed_line p).
  rewrite <- (app_nil_r_s (token_records pairs)) at 1.
  rewrite app_assoc_s.
  change (line_feed ++ token_records pairs ++ "")
    with (line_feed ++ (token_records pairs ++ "")).
  rewrite lines_line by assumption.
  rewrite app_nil_r_s, IH by assumption. reflexivity.
Qed.

Lemma lines_output env pairs :
  no_line_feed (KEY_STORE_PATH env) = true ->
  forallb (fun p => no_line_feed (printed_line p)) pairs = true ->
  lines (header_record env ++ token_records pairs)
  = header_line env :: "" :: map printed_line pairs.
Proof.
  intros Hpath Hpairs. unfold header_record.
  rewrite !app_assoc_s.
  rewrite lines_line.
  - change (line_feed ++ token_records pairs)
      with ("" ++ line_feed ++ token_records pairs).
    rewrite lines_line by reflexivity.
    now rewrite lines_token_records.
  - unfold header_line. rewrite no_line_feed_app, Hpath. reflexivity.
Qed.

Lemma printed_lines_no_line_feed {L : JoseLibrary} os_random entries :
  forall i,
  forallb no_line_feed (map fst entries) = true ->
  forallb (fun p => no_line_feed (printed_line p))
    (signed_prefix os_random i entries) = true.
Proof.
  induction entries as [|entry rest IH]; intros i;
    cbn [map forallb signed_prefix]; [reflexivity|].
  rewrite andb_true_iff. intros [Hid Hrest].
  destruct (entry_token os_random i entry) as [token|e] eqn:Htok;
    [|reflexivity].
  cbn [forallb]. rewrite IH by assumption.
  unfold printed_line, token_line. cbn [fst snd].
  rewrite !no_line_feed_app, Hid.
  rewrite (entry_token_no_line_feed os_random i entry token Htok).
  reflexivity.
Qed.

(** ** Successful runs *)

(** C3, as amended.  For a key store of N entries that all import and sign,
    the run ends with status 0 and its output is the introductory line, an
    empty line and one token record per entry, in order; when neither the
    path of the key store nor an identifier holds a line feed, these are
    exactly N + 2 lines. *)
Theorem well_formed_store_output {L : JoseLibrary} (env : environment)
  (fs : file_system) (os_random : nat -> entropy)
  (entries : list (string * json)) :
  fs (KEY_STORE_PATH env) = JsonFile (JObj entries) ->
  succeeds_before os_random 0 (List.length entries) entries ->
  exists printed : list (string * string),
    map fst printed = map fst entries
    /\ List.length printed = List.length entries
    /\ status (run env fs os_random) = 0%Z
    /\ output (run env fs os_random)
       = header_line env ++ line_feed ++ line_feed ++ token_records printed
    /\ (no_line_feed (KEY_STORE_PATH env) = true ->
        forallb no_line_feed (map fst entries) = true ->
        lines (output (run env fs os_random))
        = header_line env :: "" :: map printed_line printed
        /\ List.length (lines (output (run env fs os_random)))
           = List.length entries + 2).
Proof.
  intros Hfs Hok.
  exists (signed_prefix os_random 0 entries).
  destruct (signed_prefix_all os_random entries 0 Hok) as [Hmap Hres].
  assert (Hlen : List.length (signed_prefix os_random 0 entries)
                 = List.length entries).
  { rewrite <- (length_map fst), Hmap. apply length_map. }
  rewrite (run_json_object env fs os_random entries Hfs).
  cbn [status output]. rewrite Hres.
  split; [assumption|]. split; [assumption|]. split; [reflexivity|].
  split.
  - unfold header_record. now rewrite !app_assoc_s.
  - intros Hpath Hids.
    rewrite lines_output
      by (try assumption; now apply printed_lines_no_line_feed).
    split; [reflexivity|].
    cbn [List.length]. rewrite length_map, Hlen. lia.
Qed.


(** ** The sequence of the key loader *)

Section CollectFacts.

Context {L : JoseLibrary}.
Variable fs : file_system.
Variable path : string.

Lemma gen_collect_step g :
  gen_collect fs path g
  = match gen_next fs path g with
    | (evs, StopIteration, g') => (evs, [], None, g')
    | (evs, Raise e, g') => (evs, [], Some e, g')
    | (evs, Yield x, g') =>
        match gen_collect fs path g' with
        | (evs', xs, r, g'') => ((evs ++ evs')%list, x :: xs, r, g'')
        end
    end.
Proof.
  funelim (gen_collect fs path g).
  all: match goal with H : gen_next _ _ _ = _ |- _ => rewrite H end.
  all: try match goal with
           | H : gen_collect _ _ _ = (_, _, _, _) |- _ => rewrite H
           end.
  all: reflexivity.
Qed.

(** The pairs of the entries up to the first one that is not a JWK, and the
    exception of that one. *)
Fixpoint load_all (entries : list (string * json))
  : list (string * JWK) * option exn :=
  match entries with
  | [] => ([], None)
  | (key_id, value) :: rest =>
      match JWK_from_json (json_dumps value) with
      | Ok key =>
          let (pairs, r) := load_all rest in ((key_id, key) :: pairs, r)
      | Err e => ([], Some e)
      end
  end.

Lemma gen_collect_suspended rest :
  gen_collect fs path (Suspended rest)
  = ([], fst (load_all rest), snd (load_all rest), Finished).
Proof.
  induction rest as [|[key_id value] rest IH];
    rewrite gen_collect_step; cbn [gen_next resume_items load_all].
  - reflexivity.
  - destruct (JWK_from_json (json_dumps value)) as [key|e]; [|reflexivity].
    rewrite IH. destruct (load_all rest) as [pairs r]. reflexivity.
Qed.

Lemma gen_collect_not_started entries :
  fs path = JsonFile (JObj entries) ->
  gen_collect fs path NotStarted
  = ([EvOpen path; EvClose path], fst (load_all entries),
     snd (load_all entries), Finished).
Proof.
  intros Hfs. rewrite gen_collect_step. cbn [gen_next]. rewrite Hfs.
  cbn [items].
  destruct entries as [|[key_id value] rest]; cbn [resume_items load_all].
  - reflexivity.
  - destruct (JWK_from_json (json_dumps value)) as [key|e]; [|reflexivity].
    rewrite gen_collect_suspended.
    destruct (load_all rest) as [pairs r]. reflexivity.
Qed.

Lemma load_all_well_formed entries :
  (forall entry, In entry entries ->
     is_ok (JWK_from_json (json_dumps (snd entry))) = true) ->
  snd (load_all entries) = None
  /\ map fst (fst (load_all entries)) = map fst entries
  /\ Forall2 (fun entry pair =>
                JWK_from_json (json_dumps (snd entry)) = Ok (snd pair))
       entries (fst (load_all entries)).
Proof.
  induction entries as [|[key_id value] rest IH]; intros Hok.
  - cbn. auto.
  - cbn [load_all].
    pose proof (Hok (key_id, value) (or_introl eq_refl)) as H0.
    cbn [snd] in H0.
    destruct (JWK_from_json (json_dumps value)) as [key|e] eqn:Hkey;
      [|discriminate].
    destruct IH as [Hr [Hm Hf]].
    { intros entry Hin. apply Hok. now right. }
    destruct (load_all rest) as [pairs r]. cbn [fst snd] in *.
    split; [assumption|]. split; [cbn; now rewrite Hm|].
    constructor; [assumption | assumption].
Qed.

End CollectFacts.

(** C5.  Calling [load_private_keys] gives a generator that has done nothing
    yet.  Over a key store whose entries are all JWKs, running it to its end
    opens the file once and yields one pair per top-level entry, with the
    identifiers in the order of the document and each key imported from its
    entry; a step from a suspended generator imports the next entry only;
    the run ends (the sequence is finite) and leaves the generator finished,
    from which nothing more is yielded. *)
Theorem load_private_keys_sequence {L : JoseLibrary} (fs : file_system)
  (path : string) (entries : list (string * json)) :
  fs path = JsonFile (JObj entries) ->
  (forall entry, In entry entries ->
     is_ok (JWK_from_json (json_dumps (snd entry))) = true) ->
  exists pairs : list (string * JWK),
    load_private_keys = NotStarted
    /\ gen_collect fs path load_private_keys
       = ([EvOpen path; EvClose path], pairs, None, Finished)
    /\ List.length pairs = List.length entries
    /\ map fst pairs = map fst entries
    /\ Forall2 (fun entry pair =>
                  JWK_from_json (json_dumps (snd entry)) = Ok (snd pair))
         entries pairs
    /\ (forall key_id value rest,
          fst (gen_next fs path (Suspended ((key_id, value) :: rest)))
          = ([], match JWK_from_json (json_dumps value) with
                 | Ok key => Yield (key_id, key)
                 | Err e => Raise e
                 end))
    /\ gen_collect fs path Finished = ([], [], None, Finished)
    /\ gen_next fs path Finished = ([], StopIteration, Finished).
Proof.
  intros Hfs Hok.
  exists (fst (load_all entries)).
  destruct (load_all_well_formed entries Hok) as [Hr [Hm Hf]].
  split; [reflexivity|]. split.
  - unfold load_private_keys.
    rewrite (gen_collect_not_started fs path entries Hfs), Hr. reflexivity.
  - split.
    + rewrite <- (length_map fst), Hm. apply length_map.
    + split; [assumption|]. split; [assumption|]. split.
      * intros key_id value rest. cbn [gen_next resume_items].
        destruct (JWK_from_json (json_dumps value)); reflexivity.
      * split; [now rewrite gen_collect_step | reflexivity].
Qed.

(** C8.  The loader yields every entry that [JWK.from_json] accepts, whatever
    the key is: also a key the RS256 engine refuses (not an RSA key, or one
    without its private exponent) is yielded, first in the store or later.
    The refusal comes from [sign_mock_jwt], whose error is the error of the
    engine. *)
Theorem loader_yields_unsignable_key {L : JoseLibrary} (fs : file_system)
  (path : string) (key_id : string) (value : json)
  (rest : list (string * json)) (key : JWK) (rnd : entropy) (e : exn) :
  JWK_from_json (json_dumps value) = Ok key ->
  (forall m, jwa_sign "RS256" key m rnd = Err e) ->
  gen_next fs path (Suspended ((key_id, value) :: rest))
  = ([], Yield (key_id, key), Suspended rest)
  /\ (fs path = JsonFile (JObj ((key_id, value) :: rest)) ->
      gen_next fs path NotStarted
      = ([EvOpen path; EvClose path], Yield (key_id, key), Suspended rest))
  /\ sign_mock_jwt key_id key rnd = Err e.
Proof.
  intros Hkey Hsign. split.
  - cbn [gen_next resume_items]. now rewrite Hkey.
  - split.
    + intros Hfs. cbn [gen_next]. rewrite Hfs.
      cbn [items resume_items]. now rewrite Hkey.
    + rewrite sign_mock_jwt_unfold. now rewrite Hsign.
Qed.

(** ** The path of the key store *)




(** ** Further properties of a run *)

(** X1.  A key store that is not JSON, or whose top-level value is not an
    object, ends the run with status 1 after the introductory record; the
    file was opened and closed. *)
Theorem malformed_key_store {L : JoseLibrary} (env : environment)
  (fs : file_system) (os_random : nat -> entropy) :
  fs (KEY_STORE_PATH env) = NotJson
  \/ (exists data, fs (KEY_STORE_PATH env) = JsonFile data
                   /\ items data = Err AttributeError) ->
  status (run env fs os_random) = 1%Z
  /\ output (run env fs os_random) = header_record env
  /\ trace (run env fs os_random)
     = [EvWrite (header_record env); EvOpen (KEY_STORE_PATH env);
        EvClose (KEY_STORE_PATH env)].
Proof.
  intros Hfs. unfold run, main, load_private_keys.
  rewrite for_loop_not_started.
  unfold print, header_record, header_line.
  rewrite !app_assoc_s.
  destruct Hfs as [Hfs | [data [Hfs Hitems]]]; rewrite Hfs; [|rewrite Hitems];
    cbn [app status output trace stdout exit_status];
    rewrite app_nil_r_s; repeat split; reflexivity.
Qed.

Lemma first_failure_ok {L : JoseLibrary} os_random entries : forall i,
  first_failure os_random i entries = Ok tt ->
  succeeds_before os_random i (List.length entries) entries.
Proof.
  induction entries as [|entry0 rest IH]; intros i Hres j entry Hj Hn.
  - destruct j; discriminate.
  - cbn [first_failure] in Hres.
    destruct (entry_token os_random i entry0) as [tok|e] eqn:Htok;
      [|discriminate].
    destruct j as [|j]; cbn [nth_error] in Hn.
    + injection Hn as <-. now rewrite Nat.add_0_r, Htok.
    + rewrite Nat.add_succ_r.
      apply (IH (S i) Hres j entry); [cbn in Hj; lia | assumption].
Qed.

(** X2.  Over a key store that is a JSON object, the exit status is 0
    exactly when every entry imports and signs. *)
Theorem exit_status_zero_iff {L : JoseLibrary} (env : environment)
  (fs : file_system) (os_random : nat -> entropy)
  (entries : list (string * json)) :
  fs (KEY_STORE_PATH env) = JsonFile (JObj entries) ->
  (status (run env fs os_random) = 0%Z
   <-> succeeds_before os_random 0 (List.length entries) entries).
Proof.
  intros Hfs. rewrite (run_json_object env fs os_random entries Hfs).
  cbn [status]. split.
  - intros Hst. apply first_failure_ok.
    destruct (first_failure os_random 0 entries) as [[]|e];
      [reflexivity | discriminate].
  - intros Hok.
    destruct (signed_prefix_all os_random entries 0 Hok) as [_ Hres].
    now rewrite Hres.
Qed.

Lemma entry_token_random {L : JoseLibrary} (r1 r2 : nat -> entropy) i entry :
  rs256_deterministic L ->
  entry_token r1 i entry = entry_token r2 i entry.
Proof.
  intros Hdet. unfold entry_token.
  destruct (JWK_from_json (json_dumps (snd entry))) as [key|e];
    [|reflexivity].
  cbn [bind]. rewrite !sign_mock_jwt_unfold.
  now rewrite (Hdet key _ (r1 i) (r2 i)).
Qed.

Lemma signed_prefix_random {L : JoseLibrary} (r1 r2 : nat -> entropy)
  entries : forall i,
  rs256_deterministic L ->
  signed_prefix r1 i entries = signed_prefix r2 i entries
  /\ first_failure r1 i entries = first_failure r2 i entries.
Proof.
  induction entries as [|entry rest IH]; intros i Hdet;
    cbn [signed_prefix first_failure]; [split; reflexivity|].
  rewrite (entry_token_random r1 r2 i entry Hdet).
  destruct (entry_token r2 i entry) as [tok|e]; [|split; reflexivity].
  destruct (IH (S i) Hdet) as [Hp Hf]. now rewrite Hp, Hf.
Qed.

(** X3.  With deterministic RS256 signatures a run does not depend on the
    random source: same output, same exit status, same events. *)
Theorem run_independent_of_random {L : JoseLibrary} (env : environment)
  (fs : file_system) (r1 r2 : nat -> entropy) :
  rs256_deterministic L ->
  run env fs r1 = run env fs r2.
Proof.
  intros Hdet. unfold run, main, load_private_keys.
  rewrite !for_loop_not_started.
  destruct (fs (KEY_STORE_PATH env)) as [| | |data]; try reflexivity.
  destruct (items data) as [entries|e]; [|reflexivity].
  destruct (signed_prefix_random r1 r2 entries 0 Hdet) as [Hp Hf].
  now rewrite Hp, Hf.
Qed.

(** * Concrete runs *)


Lemma example_rs256_deterministic : rs256_deterministic Example.library.
Proof. intros k m r1 r2. reflexivity. Qed.

Lemma example_two_entries_succeed :
  succeeds_before (L := Example.library) Example.no_random 0 2
    Example.two_entries.
Proof.
  intros j entry Hj Hn.
  destruct j as [|[|j]]; [| |lia]; cbn [nth_error] in Hn;
    injection Hn as <-; vm_compute; reflexivity.
Qed.


Lemma sign_mock_jwt_deterministic_witness :
  sign_mock_jwt (L := Example.library) "k1" Example.rsa_private_key [x01]
  = sign_mock_jwt (L := Example.library) "k1" Example.rsa_private_key
      [x02; x03].
Proof.
  apply (sign_mock_jwt_deterministic (L := Example.library)
           "k1" Example.rsa_private_key [x01] [x02; x03]).
  exact example_rs256_deterministic.
Defined.

Lemma example_one_entry_succeeds :
  succeeds_before (L := Example.library) Example.no_random 0 1
    Example.one_entry.
Proof.
  intros j entry Hj Hn.
  destruct j as [|j]; [|lia]; cbn [nth_error Example.one_entry] in Hn;
    injection Hn as <-; vm_compute; reflexivity.
Qed.

Lemma failing_entry_ends_run_witness :
  exists printed : list (string * string),
    status (Example.run_on (Example.store Example.mixed_entries)) <> 0%Z
    /\ output (Example.run_on (Example.store Example.mixed_entries))
       = header_record Example.env ++ token_records printed
    /\ List.length printed <= 1
    /\ (forall j key_id token,
          nth_error printed j = Some (key_id, token) ->
          j < 1
          /\ exists value,
               nth_error Example.mixed_entries j = Some (key_id, value)
               /\ entry_token (L := Example.library) Example.no_random j
                    (key_id, value) = Ok token)
    /\ (succeeds_before (L := Example.library) Example.no_random 0 1
          Example.mixed_entries ->
          List.length printed = 1
          /\ status (Example.run_on (Example.store Example.mixed_entries))
             = 1%Z).
Proof.
  apply (failing_entry_ends_run (L := Example.library) Example.env
           (Example.store Example.mixed_entries) Example.no_random
           Example.mixed_entries 1 ("k2", Example.rsa_public)
           (JoseError "InvalidJWKType")).
  - reflexivity.
  - reflexivity.
  - vm_compute. reflexivity.
Defined.

Lemma missing_key_store_witness :
  status (Example.run_on (Example.fs_with NoSuchFile)) = 1%Z
  /\ status (Example.run_on (Example.fs_with NoSuchFile)) <> 0%Z
  /\ output (Example.run_on (Example.fs_with NoSuchFile))
     = header_record Example.env
  /\ trace (Example.run_on (Example.fs_with NoSuchFile))
     = [EvWrite (header_record Example.env);
        EvOpen (KEY_STORE_PATH Example.env)].
Proof.
  apply (missing_key_store (L := Example.library) Example.env
           (Example.fs_with NoSuchFile) Example.no_random).
  reflexivity.
Defined.

Lemma well_formed_store_output_witness :
  exists printed : list (string * string),
    map fst printed = map fst Example.two_entries
    /\ List.length printed = List.length Example.two_entries
    /\ status (Example.run_on (Example.store Example.two_entries)) = 0%Z
    /\ output (Example.run_on (Example.store Example.two_entries))
       = header_line Example.env ++ line_feed ++ line_feed
           ++ token_records printed
    /\ (no_line_feed (KEY_STORE_PATH Example.env) = true ->
        forallb no_line_feed (map fst Example.two_entries) = true ->
        lines (output (Example.run_on (Example.store Example.two_entries)))
        = header_line Example.env :: "" :: map printed_line printed
        /\ List.length
             (lines (output (Example.run_on
                               (Example.store Example.two_entries))))
           = List.length Example.two_entries + 2).
Proof.
  apply (well_formed_store_output (L := Example.library) Example.env
           (Example.store Example.two_entries) Example.no_random
           Example.two_entries).
  - reflexivity.
  - exact example_two_entries_succeed.
Defined.

(** C3 as stated fails on a store of one entry: the output has three
    lines, the introductory line, an empty line and the token line, and not
    the two lines of one header line plus one token line. *)
Lemma one_entry_output_has_three_lines :
  lines (output (Example.run_on (Example.store Example.one_entry)))
  = ["Generating JWTs using keys discovered in " ++ Example.key_store_path;
     "";
     " - k1: " ++ Example.k1_token]
  /\ List.length
       (lines (output (Example.run_on (Example.store Example.one_entry))))
     <> List.length Example.one_entry + 1.
Proof.
  split.
  - vm_compute. reflexivity.
  - vm_compute. discriminate.
Qed.



Lemma load_private_keys_sequence_witness :
  exists pairs : list (string * JWK (JoseLibrary := Example.library)),
    load_private_keys = NotStarted
    /\ gen_collect (L := Example.library)
         (Example.store Example.two_entries) Example.key_store_path
         load_private_keys
       = ([EvOpen Example.key_store_path; EvClose Example.key_store_path],
          pairs, None, Finished)
    /\ List.length pairs = List.length Example.two_entries
    /\ map fst pairs = map fst Example.two_entries
    /\ Forall2 (fun entry pair =>
                  JWK_from_json (JoseLibrary := Example.library)
                    (json_dumps (snd entry)) = Ok (snd pair))
         Example.two_entries pairs
    /\ (forall key_id value rest,
          fst (gen_next (L := Example.library)
                 (Example.store Example.two_entries) Example.key_store_path
                 (Suspended ((key_id, value) :: rest)))
          = ([], match JWK_from_json (JoseLibrary := Example.library)
                         (json_dumps value) with
                 | Ok key => Yield (key_id, key)
                 | Err e => Raise e
                 end))
    /\ gen_collect (L := Example.library)
         (Example.store Example.two_entries) Example.key_store_path
         Finished = ([], [], None, Finished)
    /\ gen_next (L := Example.library)
         (Example.store Example.two_entries) Example.key_store_path
         Finished = ([], StopIteration, Finished).
Proof.
  apply (load_private_keys_sequence (L := Example.library)
           (Example.store Example.two_entries) Example.key_store_path
           Example.two_entries).
  - reflexivity.
  - intros entry [<-|[<-|[]]]; reflexivity.
Defined.

Lemma loader_yields_unsignable_key_witness :
  (gen_next (L := Example.library) (Example.store Example.public_first)
     Example.key_store_path (Suspended Example.public_first)
   = ([], Yield ("k2", Example.rsa_public_key),
      Suspended [("k3", Example.rsa_private)])
   /\ (Example.store Example.public_first Example.key_store_path
       = JsonFile (JObj Example.public_first) ->
       gen_next (L := Example.library) (Example.store Example.public_first)
         Example.key_store_path NotStarted
       = ([EvOpen Example.key_store_path; EvClose Example.key_store_path],
          Yield ("k2", Example.rsa_public_key),
          Suspended [("k3", Example.rsa_private)]))
   /\ sign_mock_jwt (L := Example.library) "k2" Example.rsa_public_key []
      = Err (JoseError "InvalidJWKType"))
  /\ (gen_next (L := Example.library) (Example.store Example.ec_only)
        Example.key_store_path (Suspended Example.ec_only)
      = ([], Yield ("ec", Example.ec_private_key), Suspended [])
      /\ (Example.store Example.ec_only Example.key_store_path
          = JsonFile (JObj Example.ec_only) ->
          gen_next (L := Example.library) (Example.store Example.ec_only)
            Example.key_store_path NotStarted
          = ([EvOpen Example.key_store_path; EvClose Example.key_store_path],
             Yield ("ec", Example.ec_private_key), Suspended []))
      /\ sign_mock_jwt (L := Example.library) "ec" Example.ec_private_key []
         = Err (JoseError "InvalidJWKType")).
Proof.
  split.
  - apply (loader_yields_unsignable_key (L := Example.library)
             (Example.store Example.public_first) Example.key_store_path
             "k2" Example.rsa_public [("k3", Example.rsa_private)]
             Example.rsa_public_key [] (JoseError "InvalidJWKType")).
    + vm_compute. reflexivity.
    + intros m. reflexivity.
  - apply (loader_yields_unsignable_key (L := Example.library)
             (Example.store Example.ec_only) Example.key_store_path
             "ec" Example.ec_private [] Example.ec_private_key []
             (JoseError "InvalidJWKType")).
    + vm_compute. reflexivity.
    + intros m. reflexivity.
Defined.


Lemma malformed_key_store_witness :
  status (Example.run_on (Example.fs_with (JsonFile (JArr [])))) = 1%Z
  /\ output (Example.run_on (Example.fs_with (JsonFile (JArr []))))
     = header_record Example.env
  /\ trace (Example.run_on (Example.fs_with (JsonFile (JArr []))))
     = [EvWrite (header_record Example.env);
        EvOpen (KEY_STORE_PATH Example.env);
        EvClose (KEY_STORE_PATH Example.env)].
Proof.
  apply (malformed_key_store (L := Example.library) Example.env
           (Example.fs_with (JsonFile (JArr []))) Example.no_random).
  right. exists (JArr []). split; reflexivity.
Defined.

Lemma exit_status_zero_iff_witness :
  status (Example.run_on (Example.store Example.two_entries)) = 0%Z
  <-> succeeds_before (L := Example.library) Example.no_random 0
        (List.length Example.two_entries) Example.two_entries.
Proof.
  apply (exit_status_zero_iff (L := Example.library) Example.env
           (Example.store Example.two_entries) Example.no_random
           Example.two_entries).
  reflexivity.
Defined.

Lemma run_independent_of_random_witness :
  run (L := Example.library) Example.env
    (Example.store Example.two_entries) (fun _ => [x01])
  = run (L := Example.library) Example.env
      (Example.store Example.two_entries) (fun i => repeat x02 i).
Proof.
  apply (run_independent_of_random (L := Example.library) Example.env
           (Example.store Example.two_entries)
           (fun _ => [x01]) (fun i => repeat x02 i)).
  exact example_rs256_deterministic.
Defined.

(** * More on the loader, the driver and the paths *)

(** ** The loader at an entry that is not a JWK *)

Lemma load_all_stops {L : JoseLibrary} entries : forall k key_id value e,
  nth_error entries k = Some (key_id, value) ->
  JWK_from_json (json_dumps value) = Err e ->
  (forall j entry, j < k -> nth_error entries j = Some entry ->
     is_ok (JWK_from_json (json_dumps (snd entry))) = true) ->
  snd (load_all entries) = Some e
  /\ map fst (fst (load_all entries)) = firstn k (map fst entries)
  /\ List.length (fst (load_all entries)) = k.
Proof.
  induction entries as [|[id0 value0] rest IH];
    intros k key_id value e Hnth Hbad Hok.
  - destruct k; discriminate.
  - cbn [load_all]. destruct k as [|k]; cbn [nth_error] in Hnth.
    + injection Hnth as -> ->. rewrite Hbad. cbn. auto.
    + pose proof (Hok 0 (id0, value0) ltac:(lia) eq_refl) as H0.
      cbn [snd] in H0.
      destruct (JWK_from_json (json_dumps value0)) as [key0|e0];
        [|discriminate].
      destruct (IH k key_id value e Hnth Hbad) as [Hr [Hm Hl]].
      { intros j entry Hj Hn. apply (Hok (S j) entry); [lia | exact Hn]. }
      destruct (load_all rest) as [pairs r]. cbn [fst snd] in *.
      split; [assumption|]. split; cbn; congruence.
Qed.

(** X4.  When the entry at position [k] is the first that [JWK.from_json]
    rejects, the loader yields the pairs of the [k] entries before it, in
    order, then raises the exception of [from_json] unchanged and is
    finished: a further [next] gives [StopIteration]. *)
Theorem loader_stops_at_rejected_entry {L : JoseLibrary} (fs : file_system)
  (path : string) (entries : list (string * json)) (k : nat)
  (key_id : string) (value : json) (e : exn) :
  fs path = JsonFile (JObj entries) ->
  nth_error entries k = Some (key_id, value) ->
  JWK_from_json (json_dumps value) = Err e ->
  (forall j entry, j < k -> nth_error entries j = Some entry ->
     is_ok (JWK_from_json (json_dumps (snd entry))) = true) ->
  exists pairs : list (string * JWK),
    gen_collect fs path load_private_keys
    = ([EvOpen path; EvClose path], pairs, Some e, Finished)
    /\ map fst pairs = firstn k (map fst entries)
    /\ List.length pairs = k
    /\ gen_next fs path Finished = ([], StopIteration, Finished).
Proof.
  intros Hfs Hnth Hbad Hok.
  exists (fst (load_all entries)).
  destruct (load_all_stops entries k key_id value e Hnth Hbad Hok)
    as [Hr [Hm Hl]].
  unfold load_private_keys.
  rewrite (gen_collect_not_started fs path entries Hfs), Hr.
  repeat split; assumption.
Qed.

(** ** The exception a run ends with *)

(** X5.  [main] handles no exception: when the entry at position [k] is the
    first that fails, [main] raises the exception of that entry itself, the
    one of [JWK.from_json] when the import fails and the one of
    [sign_mock_jwt] when the import succeeds and the signing fails. *)
Theorem main_raises_first_failure {L : JoseLibrary} (env : environment)
  (fs : file_system) (os_random : nat -> entropy)
  (entries : list (string * json)) (k : nat) (key_id : string)
  (value : json) (e : exn) :
  fs (KEY_STORE_PATH env) = JsonFile (JObj entries) ->
  nth_error entries k = Some (key_id, value) ->
  succeeds_before os_random 0 k entries ->
  (JWK_from_json (json_dumps value) = Err e
   \/ exists key, JWK_from_json (json_dumps value) = Ok key
                  /\ sign_mock_jwt key_id key (os_random k) = Err e) ->
  fst (main env fs os_random) = Err e.
Proof.
  intros Hfs Hnth Hok Hfail.
  assert (Htok : entry_token os_random k (key_id, value) = Err e).
  { unfold entry_token. cbn [fst snd].
    destruct Hfail as [Himp | [key [Himp Hsign]]]; rewrite Himp; cbn [bind];
      [reflexivity | assumption]. }
  rewrite (main_json_object env fs os_random entries Hfs). cbn [fst].
  apply (signed_prefix_exact os_random entries 0 k (key_id, value) e
           Hnth Htok Hok).
Qed.

(** ** The events of a run *)

(** X6.  Whatever the key store holds, a run writes the introductory
    record, opens the key store once, closes it unless the opening failed,
    and then only writes token records: the file is closed before the first
    token is written, no other file is opened, and the output is the
    introductory record followed by those token records. *)
Theorem run_shape {L : JoseLibrary} (env : environment) (fs : file_system)
  (os_random : nat -> entropy) :
  exists (closes : list event) (printed : list (string * string)),
    trace (run env fs os_random)
    = (EvWrite (header_record env) :: EvOpen (KEY_STORE_PATH env)
         :: closes ++ map (fun p => EvWrite (token_record p)) printed)%list
    /\ (closes = [] \/ closes = [EvClose (KEY_STORE_PATH env)])
    /\ (closes = [] <->
        fs (KEY_STORE_PATH env) = NoSuchFile
        \/ fs (KEY_STORE_PATH env) = Unreadable)
    /\ output (run env fs os_random)
       = header_record env ++ token_records printed.
Proof.
  unfold run, main, load_private_keys.
  rewrite for_loop_not_started.
  unfold print, header_record, header_line. rewrite !app_assoc_s.
  destruct (fs (KEY_STORE_PATH env)) as [| | |data] eqn:Hfs.
  - exists [], []. cbn [app map trace output stdout token_records].
    rewrite app_nil_r_s. repeat split; auto.
  - exists [], []. cbn [app map trace output stdout token_records].
    rewrite app_nil_r_s. repeat split; auto.
  - exists [EvClose (KEY_STORE_PATH env)], [].
    cbn [app map trace output stdout token_records].
    rewrite app_nil_r_s. repeat split; auto; try discriminate.
    intros [H|H]; discriminate.
  - destruct (items data) as [entries|e].
    + exists [EvClose (KEY_STORE_PATH env)],
        (signed_prefix os_random 0 entries).
      cbn [app trace output stdout].
      fold (writes (signed_prefix os_random 0 entries)).
      rewrite stdout_writes.
      repeat split; auto; try discriminate.
      intros [H|H]; discriminate.
    + exists [EvClose (KEY_STORE_PATH env)], [].
      cbn [app map trace output stdout token_records].
      rewrite app_nil_r_s. repeat split; auto; try discriminate.
      intros [H|H]; discriminate.
Qed.

(** ** Key stores that grow *)

Lemma token_records_app a b :
  token_records (a ++ b) = token_records a ++ token_records b.
Proof.
  induction a as [|p a IH]; cbn [app token_records]; [reflexivity|].
  now rewrite IH, app_assoc_s.
Qed.

Lemma signed_prefix_app {L : JoseLibrary} os_random a b : forall i,
  signed_prefix os_random i (a ++ b)
  = (signed_prefix os_random i a
       ++ match first_failure os_random i a with
          | Ok _ => signed_prefix os_random (i + List.length a) b
          | Err _ => []
          end)%list
  /\ first_failure os_random i (a ++ b)
     = match first_failure os_random i a with
       | Ok _ => first_failure os_random (i + List.length a) b
       | Err e => Err e
       end.
Proof.
  induction a as [|entry a IH]; intros i;
    cbn [app signed_prefix first_failure List.length].
  - rewrite Nat.add_0_r. split; reflexivity.
  - destruct (entry_token os_random i entry) as [tok|e];
      [|split; reflexivity].
    destruct (IH (S i)) as [Hp Hf]. rewrite Hp, Hf.
    rewrite Nat.add_succ_r. split; reflexivity.
Qed.

(** X7.  Entries added at the end of the key store leave what was printed
    before as it was: the output over the longer store starts with the
    output over the shorter one.  After a failing run nothing is added and
    the run still fails; after a successful run the addition is the token
    records of the new entries up to their first failure. *)
Theorem appended_entries_extend_output {L : JoseLibrary} (env : environment)
  (fs1 fs2 : file_system) (os_random : nat -> entropy)
  (a b : list (string * json)) :
  fs1 (KEY_STORE_PATH env) = JsonFile (JObj a) ->
  fs2 (KEY_STORE_PATH env) = JsonFile (JObj (a ++ b)%list) ->
  exists more : string,
    output (run env fs2 os_random) = output (run env fs1 os_random) ++ more
    /\ (status (run env fs1 os_random) = 1%Z ->
        more = "" /\ status (run env fs2 os_random) = 1%Z)
    /\ (status (run env fs1 os_random) = 0%Z ->
        more = token_records (signed_prefix os_random (List.length a) b)).
Proof.
  intros H1 H2.
  rewrite (run_json_object env fs1 os_random a H1).
  rewrite (run_json_object env fs2 os_random (a ++ b)%list H2).
  cbn [output status].
  destruct (signed_prefix_app os_random a b 0) as [Hp Hf].
  rewrite Hp, Hf, token_records_app. cbn [Nat.add].
  destruct (first_failure os_random 0 a) as [[]|e]; cbn [exit_status].
  - exists (token_records (signed_prefix os_random (List.length a) b)).
    rewrite app_assoc_s. split; [reflexivity|].
    split; [discriminate | reflexivity].
  - exists "". cbn [token_records]. rewrite app_assoc_s.
    split; [reflexivity|]. split; [auto | discriminate].
Qed.

(** ** Tokens and identifiers *)


(** ** The key store beside the script *)

Lemma has_sep_false_upto p : has_sep p = false -> upto_last_sep p = "".
Proof.
  induction p as [|c p IH]; cbn [has_sep upto_last_sep]; [reflexivity|].
  rewrite orb_false_iff. intros [Hc Hp]. now rewrite Hp, Hc.
Qed.

Lemma has_sep_after_sep d name : has_sep (d ++ String "/" name) = true.
Proof.
  induction d as [|c d IH]; cbn [append has_sep]; [reflexivity|].
  rewrite IH. apply orb_true_r.
Qed.

Lemma upto_last_sep_dir d name :
  has_sep name = false ->
  upto_last_sep (d ++ String "/" name) = d ++ "/".
Proof.
  intros Hname. induction d as [|c d IH]; cbn [append upto_last_sep].
  - now rewrite Hname.
  - now rewrite has_sep_after_sep, IH.
Qed.

Lemma rstrip_sep_dir d : rstrip_sep (d ++ "/") = rstrip_sep d.
Proof.
  induction d as [|c d IH]; cbn [append rstrip_sep]; [reflexivity|].
  now rewrite IH.
Qed.

Lemma rstrip_sep_id d : ends_with_sep d = false -> rstrip_sep d = d.
Proof.
  induction d as [|c d IH]; [reflexivity|].
  cbn [ends_with_sep rstrip_sep]. destruct d as [|c' d'].
  - intros Hc. cbn [rstrip_sep]. now rewrite Hc.
  - intros Hd. now rewrite (IH Hd).
Qed.

Lemma all_sep_dir d :
  is_abs d = true -> ends_with_sep d = false -> all_sep (d ++ "/") = false.
Proof.
  intros Habs Hend. induction d as [|c d IH]; [discriminate|].
  cbn [append all_sep]. destruct d as [|c' d'].
  - cbn [ends_with_sep] in Hend. now rewrite Hend.
  - destruct (is_sep c); [|reflexivity]. cbn [andb].
    destruct (is_sep c') eqn:Hc'.
    + apply IH; [cbn [is_abs]; assumption | exact Hend].
    + cbn [append all_sep]. now rewrite Hc'.
Qed.

(** [os.path.dirname] of a file name under an absolute directory. *)
Lemma dirname_dir d name :
  is_abs d = true -> ends_with_sep d = false -> has_sep name = false ->
  dirname (d ++ "/" ++ name) = d.
Proof.
  intros Habs Hend Hname. unfold dirname.
  change (d ++ "/" ++ name) with (d ++ String "/" name).
  rewrite (upto_last_sep_dir d name Hname), (all_sep_dir d Habs Hend).
  now rewrite rstrip_sep_dir, rstrip_sep_id.
Qed.

Lemma ends_with_sep_app a c b :
  ends_with_sep (a ++ String c b) = ends_with_sep (String c b).
Proof.
  induction a as [|x a IH]; [reflexivity|].
  cbn [append]. rewrite <- IH.
  destruct a; reflexivity.
Qed.

(** X9.  For a script at an absolute path [d/name], the project directory
    is the canonical form of [d] and the key store is the file
    [test_data/mock_private_keys.json] under it. *)
Theorem key_store_beside_script (env : environment) (d name : string) :
  script_file env = d ++ "/" ++ name ->
  is_abs d = true ->
  ends_with_sep d = false ->
  has_sep name = false ->
  ends_with_sep (realpath env d) = false ->
  PROJECT_DIR env = realpath env d
  /\ KEY_STORE_PATH env
     = realpath env d ++ "/test_data/mock_private_keys.json".
Proof.
  intros Hfile Habs Hend Hname Hcanon.
  assert (Hdir : PROJECT_DIR env = realpath env d).
  { unfold PROJECT_DIR, resolve.
    now rewrite Hfile, (dirname_dir d name Habs Hend Hname), Habs. }
  split; [assumption|].
  unfold KEY_STORE_PATH. rewrite Hdir. unfold path_join at 2.
  rewrite Hcanon. unfold path_join.
  change (realpath env d ++ "/" ++ "test_data")
    with (realpath env d ++ String "/" "test_data").
  rewrite ends_with_sep_app. cbn [ends_with_sep is_sep Ascii.eqb Bool.eqb].
  rewrite app_assoc_s. reflexivity.
Qed.

Lemma dirname_relative p : is_abs p = false -> is_abs (dirname p) = false.
Proof.
  destruct p as [|c p]; [reflexivity|]. cbn [is_abs]. intros Hc.
  unfold dirname. cbn [upto_last_sep]. rewrite Hc.
  destruct (has_sep p); [|reflexivity].
  cbn [all_sep]. rewrite Hc. cbn [andb rstrip_sep].
  destruct (rstrip_sep (upto_last_sep p)); cbn [is_abs]; [|assumption].
  now rewrite Hc.
Qed.

(** X10.  When [__file__] is a relative path, the project directory is
    taken from the working directory of the process: it is the canonical
    form of the directory part of [__file__] under the working directory,
    and the working directory itself for a bare file name. *)
Theorem relative_script_uses_cwd (env : environment) :
  is_abs (script_file env) = false ->
  PROJECT_DIR env
  = realpath env (cwd env ++ "/" ++ dirname (script_file env))
  /\ (has_sep (script_file env) = false ->
      PROJECT_DIR env = realpath env (cwd env ++ "/")).
Proof.
  intros Hrel. unfold PROJECT_DIR, resolve.
  rewrite (dirname_relative _ Hrel). split; [reflexivity|].
  intros Hbare. unfold dirname.
  rewrite (has_sep_false_upto _ Hbare). reflexivity.
Qed.

(** X11.  For a script directly under the root directory, the project
    directory is the root and the key store is
    [/test_data/mock_private_keys.json]: joining under the root adds no
    second separator. *)
Theorem key_store_for_script_in_root (env : environment) (name : string) :
  script_file env = "/" ++ name ->
  has_sep name = false ->
  realpath env "/" = "/" ->
  PROJECT_DIR env = "/"
  /\ KEY_STORE_PATH env = "/test_data/mock_private_keys.json".
Proof.
  intros Hfile Hname Hroot.
  assert (Hdir : PROJECT_DIR env = "/").
  { unfold PROJECT_DIR, resolve, dirname. rewrite Hfile.
    cbn [append upto_last_sep]. rewrite Hname.
    cbn [is_sep Ascii.eqb Bool.eqb all_sep is_abs andb]. exact Hroot. }
  split; [assumption|].
  unfold KEY_STORE_PATH. rewrite Hdir. reflexivity.
Qed.

(** * More concrete runs *)

(** A key store whose second entry is no JWK. *)
Definition rejected_second : list (string * json) :=
  [("k1", Example.rsa_private); ("bad", JNull); ("k3", Example.rsa_private)].

(** The script started by a relative path, and from the root directory. *)
Definition relative_env : environment :=
  {| script_file := "generate_mock_jwts.py";
     cwd := "/home/user";
     realpath := fun p => p |}.

Definition root_env : environment :=
  {| script_file := "/generate_mock_jwts.py";
     cwd := "/home/user";
     realpath := fun p => p |}.

Lemma example_mixed_first_succeeds :
  succeeds_before (L := Example.library) Example.no_random 0 1
    Example.mixed_entries.
Proof.
  intros j entry Hj Hn.
  destruct j as [|j]; [|lia]; cbn [nth_error Example.mixed_entries] in Hn;
    injection Hn as <-; vm_compute; reflexivity.
Qed.

Lemma loader_stops_at_rejected_entry_witness :
  exists pairs : list (string * JWK (JoseLibrary := Example.library)),
    gen_collect (L := Example.library) (Example.store rejected_second)
      Example.key_store_path load_private_keys
    = ([EvOpen Example.key_store_path; EvClose Example.key_store_path],
       pairs, Some (JoseError "InvalidJWKValue"), Finished)
    /\ map fst pairs = firstn 1 (map fst rejected_second)
    /\ List.length pairs = 1
    /\ gen_next (L := Example.library) (Example.store rejected_second)
         Example.key_store_path Finished
       = ([], StopIteration, Finished).
Proof.
  apply (loader_stops_at_rejected_entry (L := Example.library)
           (Example.store rejected_second) Example.key_store_path
           rejected_second 1 "bad" JNull (JoseError "InvalidJWKValue")).
  - reflexivity.
  - reflexivity.
  - vm_compute. reflexivity.
  - intros j entry Hj Hn. destruct j as [|j]; [|lia].
    cbn [nth_error rejected_second] in Hn. injection Hn as <-.
    vm_compute. reflexivity.
Defined.

Lemma main_raises_first_failure_witness :
  fst (main (L := Example.library) Example.env
         (Example.store Example.mixed_entries) Example.no_random)
  = Err (JoseError "InvalidJWKType").
Proof.
  apply (main_raises_first_failure (L := Example.library) Example.env
           (Example.store Example.mixed_entries) Example.no_random
           Example.mixed_entries 1 "k2" Example.rsa_public
           (JoseError "InvalidJWKType")).
  - reflexivity.
  - reflexivity.
  - exact example_mixed_first_succeeds.
  - right. exists Example.rsa_public_key.
    split; vm_compute; reflexivity.
Defined.

Lemma appended_entries_extend_output_witness :
  exists more : string,
    output (Example.run_on (Example.store Example.two_entries))
    = output (Example.run_on (Example.store Example.one_entry)) ++ more
    /\ (status (Example.run_on (Example.store Example.one_entry)) = 1%Z ->
        more = ""
        /\ status (Example.run_on (Example.store Example.two_entries)) = 1%Z)
    /\ (status (Example.run_on (Example.store Example.one_entry)) = 0%Z ->
        more = token_records
                 (signed_prefix (L := Example.library) Example.no_random
                    (List.length Example.one_entry)
                    [("k2", Example.rsa_private)])).
Proof.
  apply (appended_entries_extend_output (L := Example.library) Example.env
           (Example.store Example.one_entry)
           (Example.store Example.two_entries) Example.no_random
           Example.one_entry [("k2", Example.rsa_private)]).
  - reflexivity.
  - reflexivity.
Defined.


Lemma key_store_beside_script_witness :
  PROJECT_DIR Example.env = realpath Example.env "/srv/tools"
  /\ KEY_STORE_PATH Example.env
     = realpath Example.env "/srv/tools"
         ++ "/test_data/mock_private_keys.json".
Proof.
  apply (key_store_beside_script Example.env "/srv/tools"
           "generate_mock_jwts.py"); reflexivity.
Defined.

Lemma relative_script_uses_cwd_witness :
  PROJECT_DIR relative_env
  = realpath relative_env
      (cwd relative_env ++ "/" ++ dirname (script_file relative_env))
  /\ (has_sep (script_file relative_env) = false ->
      PROJECT_DIR relative_env
      = realpath relative_env (cwd relative_env ++ "/")).
Proof.
  apply (relative_script_uses_cwd relative_env). reflexivity.
Defined.

Lemma key_store_for_script_in_root_witness :
  PROJECT_DIR root_env = "/"
  /\ KEY_STORE_PATH root_env = "/test_data/mock_private_keys.json".
Proof.
  apply (key_store_for_script_in_root root_env "generate_mock_jwts.py");
    reflexivity.
Defined.
